(** * The grade-gated form workflow of cpp05 (ex00 .. ex03)

    A shallow embedding of the bureaucrat / form classes:
    - [Form]   : cpp05/ex01/Form.cpp
    - [AForm]  : cpp05/ex02/AForm.cpp (declared in cpp05/ex03/AForm.hpp)
    - the three concrete forms and [Intern::makeForm] of ex02 / ex03.

    C++ [int] values are modelled by [Z]: the code only compares grades with
    the literals 1 and 150 and with each other, so no arithmetic can wrap.
    A method that may throw is a computation in the monad [M]: it returns
    either the exception or a value, together with the state as the method
    left it when it returned or threw.

    Left out: the destructors and the stream insertion operators, which
    only print; [std::bad_alloc] from [new]; and [Bureaucrat::signForm] and
    [Bureaucrat::executeForm], whose bodies are not among the sources. *)

From Stdlib Require Import ZArith String Ascii List Lia.
From Stdlib Require DecimalString DecimalZ DecimalPos.
From stdpp Require Import base gmap strings list.
Import ListNotations.

Local Open Scope string_scope.
Local Open Scope Z_scope.

(** ** Exceptions

    Each class nests its own exception classes; the constructor name keeps
    the enclosing class. *)
Inductive exception : Type :=
| Bureaucrat_GradeTooHighException
| Bureaucrat_GradeTooLowException
| Form_GradeTooHighException
| Form_GradeTooLowException
| AForm_GradeTooHighException
| AForm_GradeTooLowException
| AForm_FormNotSignedException
| Intern_FormNotFoundException.

(** The four error kinds of the workflow. *)
Inductive ErrorKind : Type := GradeTooHigh | GradeTooLow | FormNotSigned | FormNotFound.

Definition kind (e : exception) : ErrorKind :=
  match e with
  | Bureaucrat_GradeTooHighException | Form_GradeTooHighException
  | AForm_GradeTooHighException => GradeTooHigh
  | Bureaucrat_GradeTooLowException | Form_GradeTooLowException
  | AForm_GradeTooLowException => GradeTooLow
  | AForm_FormNotSignedException => FormNotSigned
  | Intern_FormNotFoundException => FormNotFound
  end.

(** ** A state monad with exceptions

    Unlike a state transformer over [sum], the state survives a throw:
    whatever a C++ method did before its [throw] stays done. *)
Definition M (S A : Type) : Type := S -> (exception + A) * S.

Definition ret {S A : Type} (a : A) : M S A := fun s => (inr a, s).

Definition throw {S A : Type} (e : exception) : M S A := fun s => (inl e, s).

Definition bind {S A B : Type} (m : M S A) (k : A -> M S B) : M S B :=
  fun s =>
    match m s with
    | (inl e, s') => (inl e, s')
    | (inr a, s') => k a s'
    end.

Definition get {S : Type} : M S S := fun s => (inr s, s).

Definition put {S : Type} (s : S) : M S unit := fun _ => (inr tt, s).

Definition modify {S : Type} (f : S -> S) : M S unit := fun s => (inr tt, f s).

Declare Scope cpp_scope.
Delimit Scope cpp_scope with cpp.
Notation "x <- m ;; k" := (bind m (fun x => k))
  (at level 100, m at next level, right associativity) : cpp_scope.
Notation "m ;; k" := (bind m (fun _ => k))
  (at level 100, right associativity) : cpp_scope.
Local Open Scope cpp_scope.

(** [returns r] : the call that ended as [r] completed without an exception. *)
Definition returns {S A : Type} (r : (exception + A) * S) : bool :=
  match fst r with inr _ => true | inl _ => false end.

(** ** The world outside the objects

    [cout] holds the lines sent to [std::cout], oldest first.  [files] is
    the file system: the content of each file, by the identity of the file;
    [resolve] gives the identity of the file a path names, so that two
    paths (garden and ./garden, a link and its target) may name one file.
    [unwritable] holds the paths [std::ofstream] cannot open for writing,
    and [write_budget] tells, for a file, how many bytes can be written to
    it before a write fails ([None]: no write fails).  [clock] is what
    [time(NULL)] returns.  [libc_rand] is the generator of the C library,
    from its state to the value [rand()] returns and the next state, and
    [rand_seed] is that state.  [fopen_log] and [rand_calls] are ghost
    fields: they record every path handed to an [std::ofstream] constructor
    and count the calls of [rand()]. *)
Record World : Type := mkWorld {
  cout : list string;
  files : gmap string string;
  unwritable : gset string;
  clock : Z;
  libc_rand : Z -> Z * Z;
  rand_seed : Z;
  fopen_log : list string;
  rand_calls : nat;
  resolve : string -> string;
  write_budget : string -> option nat
}.

Definition set_cout (c : list string) (w : World) : World :=
  mkWorld c (files w) (unwritable w) (clock w) (libc_rand w) (rand_seed w)
    (fopen_log w) (rand_calls w) (resolve w) (write_budget w).

Definition set_files (f : gmap string string) (w : World) : World :=
  mkWorld (cout w) f (unwritable w) (clock w) (libc_rand w) (rand_seed w)
    (fopen_log w) (rand_calls w) (resolve w) (write_budget w).

Definition set_rand_seed (s : Z) (w : World) : World :=
  mkWorld (cout w) (files w) (unwritable w) (clock w) (libc_rand w) s
    (fopen_log w) (rand_calls w) (resolve w) (write_budget w).

Definition set_fopen_log (l : list string) (w : World) : World :=
  mkWorld (cout w) (files w) (unwritable w) (clock w) (libc_rand w) (rand_seed w)
    l (rand_calls w) (resolve w) (write_budget w).

Definition set_rand_calls (n : nat) (w : World) : World :=
  mkWorld (cout w) (files w) (unwritable w) (clock w) (libc_rand w) (rand_seed w)
    (fopen_log w) n (resolve w) (write_budget w).

(** [std::cout << s << std::endl] *)
Definition println (s : string) : M World unit :=
  modify (fun w => set_cout (cout w ++ [s]) w).

(** Addresses of objects, for the methods that compare [this] with the
    address of their argument. *)
Definition loc : Type := positive.
Bind Scope positive_scope with loc.

(** ** Bureaucrat (cpp05/ex01/Bureaucrat.hpp, cpp05/ex03/Bureaucrat.hpp)

    Only the class declaration is among the sources. *)
Module Bureaucrat.

Record t : Type := mk {
  _name : string;
  _grade : Z
}.

(** Modelled from the spec: [Bureaucrat::getGrade] is declared in
    Bureaucrat.hpp and its body (Bureaucrat.cpp) is missing; the actor
    exposes its grade. *)
Definition getGrade (this : t) : Z := _grade this.

(** Modelled from the spec: the body of [Bureaucrat::getName] is missing;
    the actor exposes its immutable name. *)
Definition getName (this : t) : string := _name this.

(** Modelled from the spec: the body of the constructor
    [Bureaucrat(name, grade)] is missing.  "fails GradeTooHigh if grade < 1;
    fails GradeTooLow if grade > 150; otherwise returns an Actor with that
    grade." *)
Definition new (name : string) (grade : Z) : exception + t :=
  if grade <? 1 then inl Bureaucrat_GradeTooHighException
  else if grade >? 150 then inl Bureaucrat_GradeTooLowException
  else inr (mk name grade).

(** Modelled from the spec: the body of [Bureaucrat::incrementGrade] is
    missing.  "computes grade - 1; fails GradeTooHigh if the result is < 1;
    otherwise commits the decrease." *)
Definition incrementGrade : M t unit :=
  this <- get ;;
  let g := _grade this - 1 in
  if g <? 1 then throw Bureaucrat_GradeTooHighException
  else put (mk (_name this) g).

(** Modelled from the spec: the body of [Bureaucrat::decrementGrade] is
    missing.  "computes grade + 1; fails GradeTooLow if the result is > 150;
    otherwise commits." *)
Definition decrementGrade : M t unit :=
  this <- get ;;
  let g := _grade this + 1 in
  if g >? 150 then throw Bureaucrat_GradeTooLowException
  else put (mk (_name this) g).

(** The two mutators of an actor, and a run of any number of them; a call
    that throws leaves the actor as it was and the run goes on, as in a
    caller that catches the exception. *)
Inductive call : Type := IncrementGrade | DecrementGrade.

Definition step (c : call) : M t unit :=
  match c with
  | IncrementGrade => incrementGrade
  | DecrementGrade => decrementGrade
  end.

Definition run (cs : list call) (this : t) : t :=
  fold_left (fun b c => snd (step c b)) cs this.

(** The class invariant. *)
Definition valid (this : t) : Prop := 1 <= _grade this <= 150.

End Bureaucrat.

(** ** Objects in memory

    A method that compares [this] with the address of its argument, or that
    changes an object another reference also names, is a call on a store of
    objects.  A call on an address that holds no object has no defined
    behaviour: it yields [None]. *)
Record State (T : Type) : Type := mkState {
  heap : gmap loc T;
  world : World
}.
Arguments mkState {T} _ _.
Arguments heap {T} _.
Arguments world {T} _.

Definition Call (T A : Type) : Type := State T -> option ((exception + A) * State T).

(** A non-const method of the object at [p] that touches nothing else. *)
Definition on_object {T A : Type} (p : loc) (m : M T A) : Call T A :=
  fun σ =>
    match heap σ !! p with
    | None => None
    | Some o => let (r, o') := m o in Some (r, mkState (<[p := o']> (heap σ)) (world σ))
    end.

(** A const method of the object at [p] that acts on the world. *)
Definition on_world {T A : Type} (p : loc) (m : T -> M World A) : Call T A :=
  fun σ =>
    match heap σ !! p with
    | None => None
    | Some o => let (r, w') := m o (world σ) in Some (r, mkState (heap σ) w')
    end.

(** A constructor run on the free storage at [p]; when it throws, no object
    comes to life. *)
Definition construct_at {T : Type} (p : loc) (ctor : M World T) : Call T unit :=
  fun σ =>
    match heap σ !! p with
    | Some _ => None
    | None =>
        match ctor (world σ) with
        | (inl e, w') => Some (inl e, mkState (heap σ) w')
        | (inr o, w') => Some (inr tt, mkState (<[p := o]> (heap σ)) w')
        end
    end.

(** [if (c) m;] *)
Definition when {S : Type} (c : bool) (m : M S unit) : M S unit :=
  if c then m else ret tt.

(** ** Form (cpp05/ex01/Form.hpp, cpp05/ex01/Form.cpp) *)
Module Form.

Record t : Type := mk {
  _name : string;
  _signed : bool;
  _gradeToSign : Z;
  _gradeToExecute : Z
}.

(** [_signed = b;] the other three members are [const]. *)
Definition set_signed (b : bool) (this : t) : t :=
  mk (_name this) b (_gradeToSign this) (_gradeToExecute this).

(** [Form::Form()] *)
Definition default : M World t :=
  println "Form default constructor called" ;;
  ret (mk "Default Form" false 150 150).

(** [Form::Form(const std::string& name, int gradeToSign, int gradeToExecute)] *)
Definition new (name : string) (gradeToSign gradeToExecute : Z) : M World t :=
  println "Form parametric constructor called" ;;
  when ((gradeToSign <? 1) || (gradeToExecute <? 1))
    (throw Form_GradeTooHighException) ;;
  when ((gradeToSign >? 150) || (gradeToExecute >? 150))
    (throw Form_GradeTooLowException) ;;
  ret (mk name false gradeToSign gradeToExecute).

(** [Form::Form(const Form& other)] *)
Definition copy (other : t) : M World t :=
  println "Form copy constructor called" ;;
  ret (mk (_name other) (_signed other) (_gradeToSign other) (_gradeToExecute other)).

Definition getName (this : t) : string := _name this.
Definition getSigned (this : t) : bool := _signed this.
Definition getGradeToSign (this : t) : Z := _gradeToSign this.
Definition getGradeToExecute (this : t) : Z := _gradeToExecute this.

(** [void Form::beSigned(const Bureaucrat& bureaucrat)] *)
Definition beSigned (bureaucrat : Bureaucrat.t) : M t unit :=
  this <- get ;;
  when (Bureaucrat.getGrade bureaucrat >? _gradeToSign this)
    (throw Form_GradeTooLowException) ;;
  modify (set_signed true).

(** [Form& Form::operator=(const Form& other)], on the objects at the
    addresses [this] and [other] *)
Definition operator_assign (this other : loc) : Call t unit :=
  fun σ =>
    match heap σ !! this, heap σ !! other with
    | Some a, Some b =>
        let w' := snd (println "Form assignment operator called" (world σ)) in
        if decide (this ≠ other)
        then Some (inr tt, mkState (<[this := set_signed (_signed b) a]> (heap σ)) w')
        else Some (inr tt, mkState (heap σ) w')
    | _, _ => None
    end.

(** The calls a client can make on the forms of a store: the three
    constructors, [beSigned] and the copy assignment.  The getters are
    [const] and print nothing. *)
Inductive call : Type :=
| Default (p : loc)
| New (p : loc) (name : string) (gradeToSign gradeToExecute : Z)
| Copy (p other : loc)
| BeSigned (p : loc) (bureaucrat : Bureaucrat.t)
| Assign (p other : loc).

Definition step (c : call) : Call t unit :=
  match c with
  | Default p => construct_at p default
  | New p name gs ge => construct_at p (new name gs ge)
  | Copy p other =>
      fun σ => match heap σ !! other with
               | Some o => construct_at p (copy o) σ
               | None => None
               end
  | BeSigned p b => on_object p (beSigned b)
  | Assign p other => operator_assign p other
  end.

(** The copy assignments onto the object at [p]. *)
Definition assigns_to (p : loc) (c : call) : bool :=
  match c with
  | Assign q _ => bool_decide (q = p)
  | _ => false
  end.

End Form.

(** ** AForm (cpp05/ex03/AForm.hpp, cpp05/ex02/AForm.cpp) *)
Module AForm.

Record t : Type := mk {
  _name : string;
  _signed : bool;
  _gradeToSign : Z;
  _gradeToExecute : Z
}.

(** [_signed = b;] the other three members are [const]. *)
Definition set_signed (b : bool) (this : t) : t :=
  mk (_name this) b (_gradeToSign this) (_gradeToExecute this).

(** [AForm::AForm()] *)
Definition default : M World t :=
  println "AForm default constructor called" ;;
  ret (mk "Default AForm" false 150 150).

(** [AForm::AForm(const std::string& name, int gradeToSign, int gradeToExecute)] *)
Definition new (name : string) (gradeToSign gradeToExecute : Z) : M World t :=
  println "AForm parametric constructor called" ;;
  when ((gradeToSign <? 1) || (gradeToExecute <? 1))
    (throw AForm_GradeTooHighException) ;;
  when ((gradeToSign >? 150) || (gradeToExecute >? 150))
    (throw AForm_GradeTooLowException) ;;
  ret (mk name false gradeToSign gradeToExecute).

(** [AForm::AForm(const AForm& other)] *)
Definition copy (other : t) : M World t :=
  println "AForm copy constructor called" ;;
  ret (mk (_name other) (_signed other) (_gradeToSign other) (_gradeToExecute other)).

Definition getName (this : t) : string := _name this.
Definition getSigned (this : t) : bool := _signed this.
Definition getGradeToSign (this : t) : Z := _gradeToSign this.
Definition getGradeToExecute (this : t) : Z := _gradeToExecute this.

(** [void AForm::beSigned(const Bureaucrat& bureaucrat)] *)
Definition beSigned (bureaucrat : Bureaucrat.t) : M t unit :=
  this <- get ;;
  when (Bureaucrat.getGrade bureaucrat >? _gradeToSign this)
    (throw AForm_GradeTooLowException) ;;
  modify (set_signed true).

(** [void AForm::execute(const Bureaucrat& executor) const]; the pure
    virtual [executeAction] is the overrider of the object's class. *)
Definition execute (executeAction : M World unit) (this : t)
    (executor : Bureaucrat.t) : M World unit :=
  when (negb (_signed this)) (throw AForm_FormNotSignedException) ;;
  when (Bureaucrat.getGrade executor >? _gradeToExecute this)
    (throw AForm_GradeTooLowException) ;;
  executeAction.

End AForm.

(** ** The concrete forms

    Each of the three classes derives from [AForm] and adds one member,
    [_target]; an object records which of them it is. *)
Inductive FormClass : Type :=
| ShrubberyCreationForm
| RobotomyRequestForm
| PresidentialPardonForm.

#[global] Instance FormClass_eq_dec : EqDecision FormClass.
Proof. solve_decision. Defined.

Definition class_name (c : FormClass) : string :=
  match c with
  | ShrubberyCreationForm => "ShrubberyCreationForm"
  | RobotomyRequestForm => "RobotomyRequestForm"
  | PresidentialPardonForm => "PresidentialPardonForm"
  end.

Record object : Type := mkObject {
  dynamic_class : FormClass;
  base : AForm.t;
  _target : string
}.

Definition with_base (f : AForm.t -> AForm.t) (o : object) : object :=
  mkObject (dynamic_class o) (f (base o)) (_target o).

Definition set_target (s : string) (o : object) : object :=
  mkObject (dynamic_class o) (base o) s.

Definition getTarget (this : object) : string := _target this.

(** *** Library calls *)

Definition endl : string := String (ascii_of_nat 10) EmptyString.
Definition dquote : string := String (ascii_of_nat 34) EmptyString.

(** [s.c_str()] read as a C string: the characters before the first NUL. *)
Fixpoint c_str (s : string) : string :=
  match s with
  | EmptyString => EmptyString
  | String c s' => if Ascii.eqb c zero then EmptyString else String c (c_str s')
  end.

(** The first [n] characters of a string. *)
Fixpoint take_bytes (n : nat) (s : string) : string :=
  match n, s with
  | S n', String c s' => String c (take_bytes n' s')
  | _, _ => EmptyString
  end.

(** An [std::ofstream] object: whether it is open, whether no write on it
    has failed so far, the file it writes to, and the bytes that file still
    takes. *)
Record ofstream : Type := mkOfstream {
  os_is_open : bool;
  os_good : bool;
  os_file : string;
  os_room : option nat
}.

(** What gets to the file of [data] when the file takes [room] more bytes,
    whether all of it does, and the room left. *)
Definition written (room : option nat) (data : string) : string :=
  match room with
  | None => data
  | Some n => take_bytes n data
  end.

Definition fits (room : option nat) (data : string) : bool :=
  match room with
  | None => true
  | Some n => (String.length data <=? n)%nat
  end.

Definition room_after (room : option nat) (data : string) : option nat :=
  match room with
  | None => None
  | Some n => Some (n - String.length data)%nat
  end.

(** [std::ofstream file(path)]: the path is logged; when it can be opened,
    the file it names is emptied. *)
Definition ofstream_open (path : string) : M World ofstream :=
  modify (fun w => set_fopen_log (fopen_log w ++ [path]) w) ;;
  w <- get ;;
  if bool_decide (path ∈ unwritable w)
  then ret (mkOfstream false false (resolve w path) None)
  else
    put (set_files (<[resolve w path := EmptyString]> (files w)) w) ;;
    ret (mkOfstream true true (resolve w path) (write_budget w (resolve w path))).

(** [file << s << std::endl]: on a stream in good state the characters of
    [s] and the newline go to the file as far as the file takes them, and
    the stream leaves the good state when some do not; on a stream not in
    good state nothing is written.  Nothing is thrown either way. *)
Definition ofstream_writeln (file : ofstream) (s : string) : M World ofstream :=
  if negb (os_good file) then ret file
  else
    modify (fun w =>
              set_files (alter (fun c => c +:+ written (os_room file) (s +:+ endl))
                               (os_file file) (files w)) w) ;;
    ret (mkOfstream (os_is_open file) (fits (os_room file) (s +:+ endl))
           (os_file file) (room_after (os_room file) (s +:+ endl))).

(** One [file << s << std::endl;] statement after the other. *)
Fixpoint ofstream_writelns (file : ofstream) (lines : list string) : M World ofstream :=
  match lines with
  | [] => ret file
  | s :: lines' => file' <- ofstream_writeln file s ;; ofstream_writelns file' lines'
  end.

(** [time(NULL)] *)
Definition time_NULL : M World Z := w <- get ;; ret (clock w).

(** [srand(seed)] *)
Definition srand (seed : Z) : M World unit := modify (set_rand_seed seed).

(** [rand()] *)
Definition rand : M World Z :=
  w <- get ;;
  let (v, s') := libc_rand w (rand_seed w) in
  put (set_rand_calls (S (rand_calls w)) (set_rand_seed s' w)) ;;
  ret v.

(** [static_cast<unsigned int>(x)] *)
Definition to_unsigned_int (x : Z) : Z := x mod 2 ^ 32.

(** *** ShrubberyCreationForm (cpp05/ex03/ShrubberyCreationForm.cpp) *)

(** [ShrubberyCreationForm::ShrubberyCreationForm()] *)
Definition ShrubberyCreationForm_default : M World object :=
  b <- AForm.new "Shrubbery Creation Form" 145 137 ;;
  println "ShrubberyCreationForm default constructor called" ;;
  ret (mkObject ShrubberyCreationForm b "default").

(** [ShrubberyCreationForm::ShrubberyCreationForm(const std::string& target)] *)
Definition ShrubberyCreationForm_new (target : string) : M World object :=
  b <- AForm.new "Shrubbery Creation Form" 145 137 ;;
  println "ShrubberyCreationForm parametric constructor called" ;;
  ret (mkObject ShrubberyCreationForm b target).

(** The lines [executeAction] sends to the file, in order. *)
Definition shrubbery : list string :=
  [ "       ^";
    "      ^^^";
    "     ^^^^^";
    "    ^^^^^^^";
    "   ^^^^^^^^^";
    "  ^^^^^^^^^^^";
    " ^^^^^^^^^^^^^";
    "^^^^^^^^^^^^^^^";
    "       |||";
    "       |||";
    EmptyString;
    "      /\";
    "     /  \";
    "    /____\";
    "   /      \";
    "  /        \";
    " /__________\";
    "      ||";
    "      ||";
    EmptyString;
    "    ðŸŒ²ðŸŒ³ðŸŒ²";
    "   ðŸŒ³ðŸŒ²ðŸŒ³ðŸŒ²";
    "  ðŸŒ²ðŸŒ³ðŸŒ²ðŸŒ³ðŸŒ²";
    "     |||" ].

(** [void ShrubberyCreationForm::executeAction() const] *)
Definition ShrubberyCreationForm_executeAction (this : object) : M World unit :=
  let filename := _target this +:+ "_shrubbery" in
  file <- ofstream_open (c_str filename) ;;
  if negb (os_is_open file)
  then println ("Error: Could not create file " +:+ filename)
  else
    ofstream_writelns file shrubbery ;;
    println ("Shrubbery has been planted at " +:+ _target this).

(** *** RobotomyRequestForm (cpp05/ex02/RobotomyRequestForm.cpp) *)

(** [RobotomyRequestForm::RobotomyRequestForm()] *)
Definition RobotomyRequestForm_default : M World object :=
  b <- AForm.new "Robotomy Request Form" 72 45 ;;
  println "RobotomyRequestForm default constructor called" ;;
  ret (mkObject RobotomyRequestForm b "default").

(** [RobotomyRequestForm::RobotomyRequestForm(const std::string& target)] *)
Definition RobotomyRequestForm_new (target : string) : M World object :=
  b <- AForm.new "Robotomy Request Form" 72 45 ;;
  println "RobotomyRequestForm parametric constructor called" ;;
  ret (mkObject RobotomyRequestForm b target).

Definition robotomy_success (target : string) : string :=
  target +:+ " has been robotomized successfully!".

Definition robotomy_failure (target : string) : string :=
  "Robotomy of " +:+ target +:+ " has failed!".

(** [void RobotomyRequestForm::executeAction() const] *)
Definition RobotomyRequestForm_executeAction (this : object) : M World unit :=
  println "* DRILLING NOISES * BZZZZZZT * WHIRRRRR * CLANK *" ;;
  now <- time_NULL ;;
  srand (to_unsigned_int now) ;;
  r <- rand ;;
  if Z.rem r 2 =? 0
  then println (robotomy_success (_target this))
  else println (robotomy_failure (_target this)).

(** *** PresidentialPardonForm (cpp05/ex03/PresidentialPardonForm.cpp) *)

(** [PresidentialPardonForm::PresidentialPardonForm()] *)
Definition PresidentialPardonForm_default : M World object :=
  b <- AForm.new "Presidential Pardon Form" 25 5 ;;
  println "PresidentialPardonForm default constructor called" ;;
  ret (mkObject PresidentialPardonForm b "default").

(** [PresidentialPardonForm::PresidentialPardonForm(const std::string& target)] *)
Definition PresidentialPardonForm_new (target : string) : M World object :=
  b <- AForm.new "Presidential Pardon Form" 25 5 ;;
  println "PresidentialPardonForm parametric constructor called" ;;
  ret (mkObject PresidentialPardonForm b target).

(** [void PresidentialPardonForm::executeAction() const] *)
Definition PresidentialPardonForm_executeAction (this : object) : M World unit :=
  println (_target this +:+ " has been pardoned by Zaphod Beeblebrox.").

(** *** What the three classes share

    The copy constructor and the copy assignment of the three classes differ
    only in the class name they print. *)

(** [C()] and [C(target)] for a concrete class [C] *)
Definition default (C : FormClass) : M World object :=
  match C with
  | ShrubberyCreationForm => ShrubberyCreationForm_default
  | RobotomyRequestForm => RobotomyRequestForm_default
  | PresidentialPardonForm => PresidentialPardonForm_default
  end.

Definition new (C : FormClass) (target : string) : M World object :=
  match C with
  | ShrubberyCreationForm => ShrubberyCreationForm_new target
  | RobotomyRequestForm => RobotomyRequestForm_new target
  | PresidentialPardonForm => PresidentialPardonForm_new target
  end.

(** [C::C(const C& other) : AForm(other), _target(other._target)] *)
Definition copy (other : object) : M World object :=
  b <- AForm.copy (base other) ;;
  println (class_name (dynamic_class other) +:+ " copy constructor called") ;;
  ret (mkObject (dynamic_class other) b (_target other)).

(** [virtual void executeAction() const]: the call goes to the overrider of
    the object's class. *)
Definition executeAction (this : object) : M World unit :=
  match dynamic_class this with
  | ShrubberyCreationForm => ShrubberyCreationForm_executeAction this
  | RobotomyRequestForm => RobotomyRequestForm_executeAction this
  | PresidentialPardonForm => PresidentialPardonForm_executeAction this
  end.

(** [form.execute(executor)] on a concrete form *)
Definition execute (this : object) (executor : Bureaucrat.t) : M World unit :=
  AForm.execute (executeAction this) (base this) executor.

(** [form.beSigned(bureaucrat)] on a concrete form: the method of the
    [AForm] subobject. *)
Definition beSigned (bureaucrat : Bureaucrat.t) : M object unit :=
  fun this =>
    let (r, b) := AForm.beSigned bureaucrat (base this) in
    (r, with_base (fun _ => b) this).

(** [AForm& AForm::operator=(const AForm& other)], on the objects at the
    addresses [this] and [other] *)
Definition AForm_operator_assign (this other : loc) : Call object unit :=
  fun σ =>
    match heap σ !! this, heap σ !! other with
    | Some a, Some b =>
        let w' := snd (println "AForm assignment operator called" (world σ)) in
        if decide (this ≠ other)
        then Some (inr tt,
                   mkState (<[this := with_base (AForm.set_signed (AForm._signed (base b))) a]>
                              (heap σ)) w')
        else Some (inr tt, mkState (heap σ) w')
    | _, _ => None
    end.

(** [C& C::operator=(const C& other)] for a concrete class [C]: both
    references name objects of class [C]. *)
Definition operator_assign (C : FormClass) (this other : loc) : Call object unit :=
  fun σ =>
    match heap σ !! this, heap σ !! other with
    | Some a, Some b =>
        if decide (dynamic_class a = C ∧ dynamic_class b = C) then
          let σ1 :=
            mkState (heap σ)
              (snd (println (class_name C +:+ " assignment operator called") (world σ))) in
          if decide (this ≠ other) then
            match AForm_operator_assign this other σ1 with
            | Some (_, σ2) =>
                Some (inr tt,
                      mkState (alter (set_target (_target b)) this (heap σ2)) (world σ2))
            | None => None
            end
          else Some (inr tt, σ1)
        else None
    | _, _ => None
    end.

(** ** Intern (cpp05/ex03/Intern.hpp, cpp05/ex03/Intern.cpp)

    An intern has no members; [makeForm] does not depend on [this]. *)

(** [new ShrubberyCreationForm(target)] *)
Definition createShrubberyCreationForm (target : string) : M World object :=
  ShrubberyCreationForm_new target.

(** [new RobotomyRequestForm(target)] *)
Definition createRobotomyRequestForm (target : string) : M World object :=
  RobotomyRequestForm_new target.

(** [new PresidentialPardonForm(target)] *)
Definition createPresidentialPardonForm (target : string) : M World object :=
  PresidentialPardonForm_new target.

Definition formNames : list string :=
  [ "shrubbery creation"; "robotomy request"; "presidential pardon" ].

Definition formCreators : list (string -> M World object) :=
  [ createShrubberyCreationForm; createRobotomyRequestForm; createPresidentialPardonForm ].

(** The loop of [makeForm] over the entries [i], [i+1], ... of the two
    arrays, and what follows the loop. *)
Fixpoint makeForm_loop (entries : list (string * (string -> M World object)))
    (formName target : string) : M World object :=
  match entries with
  | (name, create) :: rest =>
      if String.eqb formName name
      then println ("Intern creates " +:+ formName) ;; create target
      else makeForm_loop rest formName target
  | [] =>
      println ("Error: Form " +:+ dquote +:+ formName +:+ dquote +:+ " does not exist") ;;
      throw Intern_FormNotFoundException
  end.

(** [AForm* Intern::makeForm(const std::string& formName, const std::string& target)] *)
Definition makeForm (formName target : string) : M World object :=
  makeForm_loop (combine formNames formCreators) formName target.

(** ** The calls on a store of concrete forms

    The constructors (directly or through an intern), [beSigned], [execute]
    and the copy assignments, of [AForm] and of the object's own class.  The
    getters are [const] and print nothing. *)
Inductive call : Type :=
| Default (C : FormClass) (p : loc)
| New (C : FormClass) (p : loc) (target : string)
| MakeForm (p : loc) (formName target : string)
| Copy (p other : loc)
| BeSigned (p : loc) (bureaucrat : Bureaucrat.t)
| Execute (p : loc) (executor : Bureaucrat.t)
| AssignAForm (p other : loc)
| Assign (C : FormClass) (p other : loc).

Definition step (c : call) : Call object unit :=
  match c with
  | Default C p => construct_at p (default C)
  | New C p target => construct_at p (new C target)
  | MakeForm p formName target => construct_at p (makeForm formName target)
  | Copy p other =>
      fun σ => match heap σ !! other with
               | Some o => construct_at p (copy o) σ
               | None => None
               end
  | BeSigned p b => on_object p (beSigned b)
  | Execute p b => on_world p (fun o => execute o b)
  | AssignAForm p other => AForm_operator_assign p other
  | Assign C p other => operator_assign C p other
  end.

(** The copy assignments onto the object at [p]. *)
Definition assigns_to (p : loc) (c : call) : bool :=
  match c with
  | AssignAForm q _ | Assign _ q _ => bool_decide (q = p)
  | _ => false
  end.

(** A run of calls; a call that throws leaves the store as the throw left
    it and the run goes on, as in a caller that catches the exception. *)
Fixpoint run (cs : list call) (σ : State object) : option (State object) :=
  match cs with
  | [] => Some σ
  | c :: cs' =>
      match step c σ with
      | Some (_, σ') => run cs' σ'
      | None => None
      end
  end.

(** ** Fixtures: the actors, forms and worlds of the test programs *)

(** A world with an empty console and file system, every path writable and
    naming a file of its own, no write failing, the clock at [t], and a
    generator whose first draw after [srand(s)] is [s]. *)
Definition world_at (t : Z) : World :=
  mkWorld [] ∅ ∅ t (fun s => (s, s + 1)) 0 [] 0%nat (fun path => path) (fun _ => None).

(** The same world with the paths of [ro] not writable. *)
Definition read_only (ro : gset string) (w : World) : World :=
  mkWorld (cout w) (files w) ro (clock w) (libc_rand w) (rand_seed w)
    (fopen_log w) (rand_calls w) (resolve w) (write_budget w).

(** The same world where every file takes [n] bytes and no more. *)
Definition short_of_room (n : nat) (w : World) : World :=
  mkWorld (cout w) (files w) (unwritable w) (clock w) (libc_rand w) (rand_seed w)
    (fopen_log w) (rand_calls w) (resolve w) (fun _ => Some n).


Definition charlie : Bureaucrat.t := Bureaucrat.mk "Charlie" 1.
Definition dave : Bureaucrat.t := Bureaucrat.mk "Dave" 150.
Definition alice : Bureaucrat.t := Bureaucrat.mk "Alice" 30.
Definition bob : Bureaucrat.t := Bureaucrat.mk "Bob" 100.

(** [Form restrictedForm("Restricted Form", 10, 5)] of ex01, once built *)
Definition restrictedForm : Form.t := Form.mk "Restricted Form" false 10 5.

(** [RobotomyRequestForm("Bender")] and [ShrubberyCreationForm("garden")],
    once built *)
Definition bender : object :=
  mkObject RobotomyRequestForm (AForm.mk "Robotomy Request Form" false 72 45) "Bender".

Definition garden : object :=
  mkObject ShrubberyCreationForm (AForm.mk "Shrubbery Creation Form" false 145 137) "garden".

Definition empty_store : State object := mkState ∅ (world_at 0).

(** Two pardons are built and the first is signed by Charlie; then the
    second is assigned onto the first through [AForm::operator=]. *)
Definition build_and_sign : list call :=
  [ New PresidentialPardonForm 1 "Ford";
    New PresidentialPardonForm 2 "Arthur";
    BeSigned 1 charlie ].

Definition sign_then_assign : list call :=
  build_and_sign ++ [ AssignAForm 1 2 ].

(** The signed flag of the form at [p], when there is one. *)
Definition signed_at (p : loc) (σ : State object) : option bool :=
  (fun o => AForm._signed (base o)) <$> heap σ !! p.

(** The text [executeAction] sends to the file of a shrubbery: the lines of
    [shrubbery], each followed by a newline. *)
Definition shrubbery_text : string :=
  fold_left (fun acc l => acc +:+ l +:+ endl) shrubbery EmptyString.

(** A string without a NUL character. *)
Fixpoint no_NUL (s : string) : bool :=
  match s with
  | EmptyString => true
  | String c s' => negb (Ascii.eqb c zero) && no_NUL s'
  end.

Definition ford : object :=
  mkObject PresidentialPardonForm (AForm.mk "Presidential Pardon Form" false 25 5) "Ford".

Definition arthur : object :=
  mkObject PresidentialPardonForm (AForm.mk "Presidential Pardon Form" false 25 5) "Arthur".

(** A store with the signed pardon of Ford at 1 and the unsigned pardon of
    Arthur at 2. *)
Definition two_pardons : State object :=
  mkState (<[1%positive := with_base (AForm.set_signed true) ford]>
             (<[2%positive := arthur]> ∅))
          (world_at 0).

(** The same with the [Form]s of ex01: a signed form at 1, an unsigned one
    at 2. *)
Definition two_forms : State Form.t :=
  mkState (<[1%positive := Form.mk "Original Form" true 75 50]>
             (<[2%positive := Form.mk "Assigned Form" false 100 100]> ∅))
          (world_at 0).

(** The members of a form that are declared [const]. *)
Definition same_constants (o o' : object) : Prop :=
  dynamic_class o' = dynamic_class o ∧
  AForm._name (base o') = AForm._name (base o) ∧
  AForm._gradeToSign (base o') = AForm._gradeToSign (base o) ∧
  AForm._gradeToExecute (base o') = AForm._gradeToExecute (base o).

Definition Form_same_constants (f f' : Form.t) : Prop :=
  Form._name f' = Form._name f ∧
  Form._gradeToSign f' = Form._gradeToSign f ∧
  Form._gradeToExecute f' = Form._gradeToExecute f.

(** The grades a constructor call left in the form it built. *)
Definition thresholds_of (r : (exception + object) * World) : option (Z * Z) :=
  match fst r with
  | inr o => Some (AForm._gradeToSign (base o), AForm._gradeToExecute (base o))
  | inl _ => None
  end.

(** The boolean [executeAction] of a robotomy draws in the world [w]:
    [rand() % 2 == 0], right after [srand(time(NULL))]. *)
Definition drawn (w : World) : bool :=
  Z.rem (fst (libc_rand w (to_unsigned_int (clock w)))) 2 =? 0.

(** A world whose generator answers [v] to every call. *)
Definition world_drawing (v : Z) : World :=
  mkWorld [] ∅ ∅ 0 (fun s => (v, s)) 0 [] 0%nat (fun path => path) (fun _ => None).

(** ** The rest of the classes: messages, receivers, traces *)

(** [what()] of the exception classes of Form.cpp, AForm.cpp and
    Intern.cpp.  The bodies of the two [Bureaucrat] exception classes are
    not among the sources: no message is given for them. *)
Definition what (e : exception) : option string :=
  match e with
  | Form_GradeTooHighException => Some "grade is too high"
  | Form_GradeTooLowException => Some "grade is too low"
  | AForm_GradeTooHighException => Some "grade is too high"
  | AForm_GradeTooLowException => Some "grade is too low"
  | AForm_FormNotSignedException => Some "form is not signed"
  | Intern_FormNotFoundException => Some "Form not found"
  | Bureaucrat_GradeTooHighException | Bureaucrat_GradeTooLowException => None
  end.

(** The object a call is made on: the one under construction, or [*this]. *)
Definition receiver (c : call) : loc :=
  match c with
  | Default _ p | New _ p _ | MakeForm p _ _ | Copy p _ | BeSigned p _
  | Execute p _ | AssignAForm p _ | Assign _ p _ => p
  end.

Definition Form_receiver (c : Form.call) : loc :=
  match c with
  | Form.Default p | Form.New p _ _ _ | Form.Copy p _ | Form.BeSigned p _
  | Form.Assign p _ => p
  end.

(** A run of calls that keeps how each call ended, in order. *)
Fixpoint trace (cs : list call) (σ : State object)
  : option (list (exception + unit) * State object) :=
  match cs with
  | [] => Some ([], σ)
  | c :: cs' =>
      match step c σ with
      | Some (r, σ') =>
          match trace cs' σ' with
          | Some (rs, σ'') => Some (r :: rs, σ'')
          | None => None
          end
      | None => None
      end
  end.

(** A run of calls on a store of the forms of ex01. *)
Fixpoint Form_run (cs : list Form.call) (σ : State Form.t) : option (State Form.t) :=
  match cs with
  | [] => Some σ
  | c :: cs' =>
      match Form.step c σ with
      | Some (_, σ') => Form_run cs' σ'
      | None => None
      end
  end.

(** The name and the two grades the constructors of a concrete class hand
    to [AForm::AForm]. *)
Definition class_title (C : FormClass) : string :=
  match C with
  | ShrubberyCreationForm => "Shrubbery Creation Form"
  | RobotomyRequestForm => "Robotomy Request Form"
  | PresidentialPardonForm => "Presidential Pardon Form"
  end.

Definition class_gradeToSign (C : FormClass) : Z :=
  match C with
  | ShrubberyCreationForm => 145
  | RobotomyRequestForm => 72
  | PresidentialPardonForm => 25
  end.

Definition class_gradeToExecute (C : FormClass) : Z :=
  match C with
  | ShrubberyCreationForm => 137
  | RobotomyRequestForm => 45
  | PresidentialPardonForm => 5
  end.

(** An object as the constructors of its class build it, up to the signed
    flag and the target. *)
Definition well_formed (o : object) : Prop :=
  AForm._name (base o) = class_title (dynamic_class o) ∧
  AForm._gradeToSign (base o) = class_gradeToSign (dynamic_class o) ∧
  AForm._gradeToExecute (base o) = class_gradeToExecute (dynamic_class o).

(** A [Form] whose grades passed the checks of its constructor. *)
Definition Form_in_range (f : Form.t) : Prop :=
  1 <= Form._gradeToSign f <= 150 ∧ 1 <= Form._gradeToExecute f <= 150.

(** The [Form] of ex01 with the members of an [AForm] of ex02. *)
Definition to_Form (a : AForm.t) : Form.t :=
  Form.mk (AForm._name a) (AForm._signed a) (AForm._gradeToSign a) (AForm._gradeToExecute a).

(** How a call of ex02 and a call of ex01 end alike: both with a value,
    related by [R], or both with an exception of the same kind. *)
Definition ends_alike {A B : Type} (R : A -> B -> Prop)
    (x : exception + A) (y : exception + B) : Prop :=
  match x, y with
  | inr a, inr b => R a b
  | inl e, inl e' => kind e = kind e'
  | _, _ => False
  end.

(** The line a robotomy prints for the draw [b]. *)
Definition robotomy_line (b : bool) (target : string) : string :=
  if b then robotomy_success target else robotomy_failure target.

Definition drilling : string := "* DRILLING NOISES * BZZZZZZT * WHIRRRRR * CLANK *".

(** ** Printing a form *)

(** [out << n] for an [int] [n], with the stream as [main] leaves it: the
    decimal digits, after a minus sign when [n] is negative. *)
Definition print_int (n : Z) : string :=
  DecimalString.NilZero.string_of_int (Z.to_int n).

(** [std::ostream& operator<<(std::ostream& out, const AForm& form)]: the
    characters it sends to [out]. *)
Definition AForm_insertion (form : AForm.t) : string :=
  "AForm " +:+ AForm.getName form
  +:+ ", signed: " +:+ (if AForm.getSigned form then "yes" else "no")
  +:+ ", grade required to sign: " +:+ print_int (AForm.getGradeToSign form)
  +:+ ", grade required to execute: " +:+ print_int (AForm.getGradeToExecute form).

(** [std::ostream& operator<<(std::ostream& out, const Form& form)] *)
Definition Form_insertion (form : Form.t) : string :=
  "Form " +:+ Form.getName form
  +:+ ", signed: " +:+ (if Form.getSigned form then "yes" else "no")
  +:+ ", grade required to sign: " +:+ print_int (Form.getGradeToSign form)
  +:+ ", grade required to execute: " +:+ print_int (Form.getGradeToExecute form).

(** The number of commas of a string. *)
Fixpoint commas (s : string) : nat :=
  match s with
  | EmptyString => 0%nat
  | String c s' => ((if Ascii.eqb c "," then 1 else 0) + commas s')%nat
  end.

(** What either insertion operator sends after the name of the form. *)
Definition after_name (signed : bool) (gradeToSign gradeToExecute : Z) : string :=
  ", signed: " +:+ (if signed then "yes" else "no")
  +:+ ", grade required to sign: " +:+ print_int gradeToSign
  +:+ ", grade required to execute: " +:+ print_int gradeToExecute.

(** The characters the statements [file << s << std::endl;] send for the
    lines [s] of a list, one after the other. *)
Fixpoint lines_text (lines : list string) : string :=
  match lines with
  | [] => EmptyString
  | s :: lines' => (s +:+ endl) +:+ lines_text lines'
  end.

(** * Properties *)

Ltac run_M :=
  unfold bind, when, throw, ret, get, put, modify, println in *; simpl in *.

(** ** Signing *)

Lemma AForm_beSigned_cases (b : Bureaucrat.t) (f : AForm.t) :
  (Bureaucrat.getGrade b <= AForm._gradeToSign f ∧
   AForm.beSigned b f = (inr tt, AForm.set_signed true f)) ∨
  (Bureaucrat.getGrade b > AForm._gradeToSign f ∧
   AForm.beSigned b f = (inl AForm_GradeTooLowException, f)).
Proof.
  unfold AForm.beSigned. run_M.
  destruct (Z.gtb_spec (Bureaucrat.getGrade b) (AForm._gradeToSign f)); simpl.
  - right. split; [lia | reflexivity].
  - left. split; [lia | reflexivity].
Qed.

Lemma Form_beSigned_cases (b : Bureaucrat.t) (f : Form.t) :
  (Bureaucrat.getGrade b <= Form._gradeToSign f ∧
   Form.beSigned b f = (inr tt, Form.set_signed true f)) ∨
  (Bureaucrat.getGrade b > Form._gradeToSign f ∧
   Form.beSigned b f = (inl Form_GradeTooLowException, f)).
Proof.
  unfold Form.beSigned. run_M.
  destruct (Z.gtb_spec (Bureaucrat.getGrade b) (Form._gradeToSign f)); simpl.
  - right. split; [lia | reflexivity].
  - left. split; [lia | reflexivity].
Qed.

(** C1. [beSigned] succeeds exactly when the actor's grade is at most the
    signing threshold, and then leaves the form with its signed flag true
    and its name and grades as they were; it throws GradeTooLow, leaving
    the form as it was, exactly when the grade is above the threshold.  The
    check is made on every call: signing again with an eligible actor
    succeeds and changes nothing, and an ineligible actor fails on a signed
    form too, which stays signed.  Both for [AForm] (ex02) and for [Form]
    (ex01). *)
Theorem beSigned_checks_threshold (actor : Bureaucrat.t) :
  (∀ d : AForm.t,
     (AForm.beSigned actor d
        = (inr tt, AForm.mk (AForm._name d) true
                     (AForm._gradeToSign d) (AForm._gradeToExecute d))
        ↔ Bureaucrat.getGrade actor <= AForm._gradeToSign d) ∧
     (fst (AForm.beSigned actor d) = inr tt
        ↔ Bureaucrat.getGrade actor <= AForm._gradeToSign d) ∧
     (fst (AForm.beSigned actor d) = inr tt →
        AForm._signed (snd (AForm.beSigned actor d)) = true) ∧
     (AForm.beSigned actor d = (inl AForm_GradeTooLowException, d)
        ↔ Bureaucrat.getGrade actor > AForm._gradeToSign d) ∧
     (Bureaucrat.getGrade actor <= AForm._gradeToSign d →
        AForm.beSigned actor (snd (AForm.beSigned actor d))
        = (inr tt, snd (AForm.beSigned actor d))) ∧
     (Bureaucrat.getGrade actor > AForm._gradeToSign d →
        AForm._signed d = true →
        fst (AForm.beSigned actor d) = inl AForm_GradeTooLowException ∧
        AForm._signed (snd (AForm.beSigned actor d)) = true)) ∧
  (∀ d : Form.t,
     (Form.beSigned actor d
        = (inr tt, Form.mk (Form._name d) true
                     (Form._gradeToSign d) (Form._gradeToExecute d))
        ↔ Bureaucrat.getGrade actor <= Form._gradeToSign d) ∧
     (fst (Form.beSigned actor d) = inr tt
        ↔ Bureaucrat.getGrade actor <= Form._gradeToSign d) ∧
     (fst (Form.beSigned actor d) = inr tt →
        Form._signed (snd (Form.beSigned actor d)) = true) ∧
     (Form.beSigned actor d = (inl Form_GradeTooLowException, d)
        ↔ Bureaucrat.getGrade actor > Form._gradeToSign d) ∧
     (Bureaucrat.getGrade actor <= Form._gradeToSign d →
        Form.beSigned actor (snd (Form.beSigned actor d))
        = (inr tt, snd (Form.beSigned actor d))) ∧
     (Bureaucrat.getGrade actor > Form._gradeToSign d →
        Form._signed d = true →
        fst (Form.beSigned actor d) = inl Form_GradeTooLowException ∧
        Form._signed (snd (Form.beSigned actor d)) = true)).
Proof.
  split; intros d.
  - destruct (AForm_beSigned_cases actor d) as [[Hg E] | [Hg E]]; rewrite E.
    + split; [split; [intros _; exact Hg | intros _; reflexivity] |].
      split; [split; [intros _; exact Hg | intros _; reflexivity] |].
      split; [intros _; reflexivity |].
      split; [split; [discriminate | intros; lia] |].
      split; [| intros; lia].
      intros _. cbn [snd].
      destruct (AForm_beSigned_cases actor (AForm.set_signed true d))
        as [[_ E'] | [Hg' _]]; [exact E' | simpl in Hg'; lia].
    + split; [split; [discriminate | intros; lia] |].
      split; [split; [discriminate | intros; lia] |].
      split; [discriminate |].
      split; [split; [intros _; exact Hg | intros _; reflexivity] |].
      split; [intros; lia |].
      intros _ Hs. split; [reflexivity | exact Hs].
  - destruct (Form_beSigned_cases actor d) as [[Hg E] | [Hg E]]; rewrite E.
    + split; [split; [intros _; exact Hg | intros _; reflexivity] |].
      split; [split; [intros _; exact Hg | intros _; reflexivity] |].
      split; [intros _; reflexivity |].
      split; [split; [discriminate | intros; lia] |].
      split; [| intros; lia].
      intros _. cbn [snd].
      destruct (Form_beSigned_cases actor (Form.set_signed true d))
        as [[_ E'] | [Hg' _]]; [exact E' | simpl in Hg'; lia].
    + split; [split; [discriminate | intros; lia] |].
      split; [split; [discriminate | intros; lia] |].
      split; [discriminate |].
      split; [split; [intros _; exact Hg | intros _; reflexivity] |].
      split; [intros; lia |].
      intros _ Hs. split; [reflexivity | exact Hs].
Qed.

(** The ex01 test program: Charlie (grade 1) signs the restricted form,
    signs it again, and Dave (grade 150) fails on the signed form, which
    stays signed; Alice signs the robotomy of Bender. *)
Lemma beSigned_checks_threshold_witness :
  Form.beSigned charlie restrictedForm
    = (inr tt, Form.mk "Restricted Form" true 10 5) ∧
  Form.beSigned charlie (Form.mk "Restricted Form" true 10 5)
    = (inr tt, Form.mk "Restricted Form" true 10 5) ∧
  Form.beSigned dave (Form.mk "Restricted Form" true 10 5)
    = (inl Form_GradeTooLowException, Form.mk "Restricted Form" true 10 5) ∧
  AForm._signed (snd (AForm.beSigned alice (base bender))) = true.
Proof.
  destruct (proj2 (beSigned_checks_threshold charlie) restrictedForm)
    as (Hsign & _ & _ & _ & Hagain & _).
  destruct (proj2 (beSigned_checks_threshold dave) (Form.mk "Restricted Form" true 10 5))
    as (_ & _ & _ & Hlow & _ & _).
  destruct (proj1 (beSigned_checks_threshold alice) (base bender))
    as (_ & Hret & Hset & _).
  split; [| split; [| split]].
  - apply Hsign. simpl. lia.
  - apply Hagain. simpl. lia.
  - apply Hlow. simpl. lia.
  - apply Hset. apply Hret. simpl. lia.
Defined.

(** ** Execution *)

Lemma length_append (s1 s2 : string) :
  String.length (s1 +:+ s2) = (String.length s1 + String.length s2)%nat.
Proof. induction s1 as [| c s1 IH]; simpl; [reflexivity | rewrite IH; reflexivity]. Qed.

Lemma append_nil_r (s : string) : s +:+ EmptyString = s.
Proof.
  induction s as [| c s IH]; [reflexivity |].
  change (String c (s +:+ EmptyString) = String c s). f_equal. exact IH.
Qed.

Lemma append_assoc (a b c : string) : (a +:+ b) +:+ c = a +:+ (b +:+ c).
Proof.
  induction a as [| x a IH]; [reflexivity |].
  change (String x ((a +:+ b) +:+ c) = String x (a +:+ (b +:+ c))). f_equal. exact IH.
Qed.

Lemma take_bytes_all (n : nat) (d : string) :
  (String.length d <= n)%nat → take_bytes n d = d.
Proof.
  revert n. induction d as [| c d IH]; intros [| n] H; simpl in *;
    try reflexivity; try lia.
  f_equal. apply IH. lia.
Qed.

Lemma take_bytes_append (n : nat) (a b : string) :
  take_bytes n (a +:+ b)
  = if (String.length a <=? n)%nat
    then a +:+ take_bytes (n - String.length a) b
    else take_bytes n a.
Proof.
  revert n. induction a as [| c a IH]; intros n.
  - change (EmptyString +:+ b) with b. simpl. rewrite Nat.sub_0_r. reflexivity.
  - change (String c a +:+ b) with (String c (a +:+ b)).
    destruct n as [| n]; [reflexivity |].
    cbn [take_bytes String.length]. rewrite IH.
    change (S (String.length a) <=? S n)%nat with (String.length a <=? n)%nat.
    destruct (String.length a <=? n)%nat; reflexivity.
Qed.

(** What gets to a file of two pieces of data written one after the other. *)
Lemma written_append (room : option nat) (a b : string) :
  written room (a +:+ b)
  = written room a
    +:+ (if fits room a then written (room_after room a) b else EmptyString).
Proof.
  destruct room as [n |]; [| reflexivity].
  cbn [written fits room_after]. rewrite take_bytes_append.
  destruct (Nat.leb_spec (String.length a) n) as [H | H].
  - rewrite (take_bytes_all n a) by assumption. reflexivity.
  - rewrite append_nil_r. reflexivity.
Qed.

(** The statements [file << s << std::endl;] for the lines of a list never
    throw, and the file gets of their characters what it has room for; a
    stream that is not in good state writes nothing. *)
Lemma ofstream_writelns_eq (file : ofstream) (lines : list string) (w : World) :
  ∃ file',
    ofstream_writelns file lines w
    = (inr file',
       set_files
         (alter (fun c => c +:+ (if os_good file
                                 then written (os_room file) (lines_text lines)
                                 else EmptyString))
                (os_file file) (files w)) w).
Proof.
  revert file w. induction lines as [| s lines IH]; intros file w.
  - exists file. cbn [ofstream_writelns lines_text]. unfold ret. f_equal.
    rewrite alter_id.
    + destruct w; reflexivity.
    + intros c _. destruct (os_good file); [destruct (os_room file) as [[| n] |] |];
        apply append_nil_r.
  - cbn [ofstream_writelns lines_text]. unfold ofstream_writeln.
    destruct (os_good file) eqn:Hg; cbn [negb]; unfold bind.
    + unfold modify, ret. cbv beta iota.
      match goal with |- context [ofstream_writelns ?f lines ?w1] =>
        destruct (IH f w1) as [file' E]; rewrite E end.
      exists file'. f_equal. cbn [os_good os_room os_file files set_files].
      unfold set_files; cbn [cout files unwritable clock libc_rand rand_seed fopen_log
                             rand_calls resolve write_budget].
      f_equal. rewrite alter_alter_eq. apply alter_ext. intros c _.
      cbn [compose os_good os_room].
      rewrite (written_append (os_room file) (s +:+ endl) (lines_text lines)).
      rewrite append_assoc. reflexivity.
    + unfold ret. destruct (IH file w) as [file' E]. rewrite E, Hg.
      exists file'. reflexivity.
Qed.

Lemma shrubbery_text_eq : lines_text shrubbery = shrubbery_text.
Proof. vm_compute. reflexivity. Qed.

(** What gets to a file is a leading part of the data, and all of it when
    the data fits. *)
Lemma written_prefix (room : option nat) (d : string) :
  ∃ rest, d = written room d +:+ rest.
Proof.
  destruct room as [n |]; cbn [written];
    [| exists EmptyString; symmetry; apply append_nil_r].
  revert n. induction d as [| c d IH]; intros n.
  - exists EmptyString. destruct n; reflexivity.
  - destruct n as [| n].
    + exists (String c d). reflexivity.
    + destruct (IH n) as [rest E]. exists rest. cbn [take_bytes].
      change (String c d = String c (take_bytes n d +:+ rest)). f_equal. exact E.
Qed.

Lemma written_fits (room : option nat) (d : string) :
  fits room d = true → written room d = d.
Proof.
  destruct room as [n |]; [| reflexivity]. cbn [fits written]. intros H.
  apply take_bytes_all. apply Nat.leb_le. exact H.
Qed.

(** What [ShrubberyCreationForm::executeAction] does, in one equation. *)
Lemma ShrubberyCreationForm_executeAction_eq (this : object) (w : World) :
  ShrubberyCreationForm_executeAction this w
  = let filename := _target this +:+ "_shrubbery" in
    let w1 := set_fopen_log (fopen_log w ++ [c_str filename]) w in
    let f := resolve w (c_str filename) in
    if bool_decide (c_str filename ∈ unwritable w)
    then (inr tt,
          set_cout (cout w ++ ["Error: Could not create file " +:+ filename]) w1)
    else (inr tt,
          set_cout (cout w ++ ["Shrubbery has been planted at " +:+ _target this])
            (set_files (<[f := written (write_budget w f) shrubbery_text]> (files w)) w1)).
Proof.
  unfold ShrubberyCreationForm_executeAction. rewrite <- shrubbery_text_eq.
  generalize shrubbery. intros lines.
  unfold ofstream_open, bind, modify, get, put, ret, println.
  cbn [fst snd unwritable set_fopen_log resolve write_budget].
  destruct (bool_decide _); cbn [negb os_is_open]; [reflexivity |].
  match goal with |- context [ofstream_writelns ?f lines ?w1] =>
    destruct (ofstream_writelns_eq f lines w1) as [file' E]; rewrite E end.
  cbn. rewrite alter_insert_eq. reflexivity.
Qed.

(** None of the three overriders of [executeAction] throws. *)
Lemma executeAction_returns (this : object) (w : World) :
  fst (executeAction this w) = inr tt.
Proof.
  unfold executeAction. destruct (dynamic_class this).
  - rewrite ShrubberyCreationForm_executeAction_eq. cbv zeta.
    destruct (bool_decide _); reflexivity.
  - unfold RobotomyRequestForm_executeAction, time_NULL, srand, rand. run_M.
    destruct (libc_rand w _) as [r s']. simpl.
    destruct (Z.rem r 2 =? 0); reflexivity.
  - reflexivity.
Qed.

Lemma AForm_execute_unsigned (act : M World unit) d actor w :
  AForm._signed d = false →
  AForm.execute act d actor w = (inl AForm_FormNotSignedException, w).
Proof. intros Hs. unfold AForm.execute. run_M. rewrite Hs. reflexivity. Qed.

Lemma AForm_execute_low (act : M World unit) d actor w :
  AForm._signed d = true →
  Bureaucrat.getGrade actor > AForm._gradeToExecute d →
  AForm.execute act d actor w = (inl AForm_GradeTooLowException, w).
Proof.
  intros Hs Hg. unfold AForm.execute. run_M. rewrite Hs. simpl.
  destruct (Z.gtb_spec (Bureaucrat.getGrade actor) (AForm._gradeToExecute d));
    [reflexivity | lia].
Qed.

Lemma AForm_execute_action (act : M World unit) d actor w :
  AForm._signed d = true →
  Bureaucrat.getGrade actor <= AForm._gradeToExecute d →
  AForm.execute act d actor w = act w.
Proof.
  intros Hs Hg. unfold AForm.execute. run_M. rewrite Hs. simpl.
  destruct (Z.gtb_spec (Bureaucrat.getGrade actor) (AForm._gradeToExecute d));
    [lia | reflexivity].
Qed.

(** C2. [execute] on an unsigned form throws FormNotSigned whatever the
    executor's grade, before any grade check; on a signed form it throws
    GradeTooLow when the executor's grade is above the execution threshold,
    and otherwise it runs the [executeAction] of the form's class and ends
    as that call ends.  For the three concrete classes, whose action never
    throws, a signed form's [execute] throws GradeTooLow exactly when the
    grade is above the threshold. *)
Theorem execute_checks_signed_then_grade
    (action : M World unit) (d : AForm.t) (form : object)
    (actor : Bureaucrat.t) (w : World) :
  (AForm._signed d = false →
     AForm.execute action d actor w = (inl AForm_FormNotSignedException, w)) ∧
  (AForm._signed d = true →
     Bureaucrat.getGrade actor > AForm._gradeToExecute d →
     AForm.execute action d actor w = (inl AForm_GradeTooLowException, w)) ∧
  (AForm._signed d = true →
     Bureaucrat.getGrade actor <= AForm._gradeToExecute d →
     AForm.execute action d actor w = action w) ∧
  (AForm._signed (base form) = false →
     execute form actor w = (inl AForm_FormNotSignedException, w)) ∧
  (AForm._signed (base form) = true →
     (fst (execute form actor w) = inl AForm_GradeTooLowException
        ↔ Bureaucrat.getGrade actor > AForm._gradeToExecute (base form)) ∧
     (Bureaucrat.getGrade actor <= AForm._gradeToExecute (base form) →
        execute form actor w = executeAction form w)).
Proof.
  split; [apply AForm_execute_unsigned |].
  split; [apply AForm_execute_low |].
  split; [apply AForm_execute_action |].
  unfold execute. split; [apply AForm_execute_unsigned |].
  intros Hs. split; [| apply AForm_execute_action; assumption].
  destruct (Z_le_gt_dec (Bureaucrat.getGrade actor) (AForm._gradeToExecute (base form)))
    as [Hle | Hgt].
  - rewrite AForm_execute_action by assumption.
    rewrite executeAction_returns. split; [discriminate | lia].
  - rewrite AForm_execute_low by assumption. split; [intros _; exact Hgt | reflexivity].
Qed.

(** The scenarios of the test programs: Bob (grade 1 in ex02, here Charlie)
    cannot execute an unsigned robotomy; Alice signs and executes one. *)
Lemma execute_checks_signed_then_grade_witness :
  execute bender charlie (world_at 0) = (inl AForm_FormNotSignedException, world_at 0) ∧
  execute (with_base (AForm.set_signed true) bender) bob (world_at 0)
    = (inl AForm_GradeTooLowException, world_at 0) ∧
  execute (with_base (AForm.set_signed true) bender) alice (world_at 0)
    = executeAction (with_base (AForm.set_signed true) bender) (world_at 0).
Proof.
  split; [| split].
  - apply (execute_checks_signed_then_grade (ret tt) (base bender) bender charlie).
    reflexivity.
  - apply (execute_checks_signed_then_grade
             (executeAction (with_base (AForm.set_signed true) bender))
             (AForm.set_signed true (base bender)) bender bob (world_at 0)).
    + reflexivity.
    + simpl. lia.
  - apply (execute_checks_signed_then_grade (ret tt) (base bender)
             (with_base (AForm.set_signed true) bender) alice (world_at 0)).
    + reflexivity.
    + simpl. lia.
Defined.

(** ** What a call does to the objects of a store *)

Lemma same_constants_refl (o : object) : same_constants o o.
Proof. repeat split. Qed.

Lemma construct_at_frame {T : Type} (p0 : loc) (ctor : M World T)
    (σ σ' : State T) (r : exception + unit) (p : loc) (o : T) :
  construct_at p0 ctor σ = Some (r, σ') →
  heap σ !! p = Some o →
  heap σ' !! p = Some o.
Proof.
  unfold construct_at. intros H Hp.
  destruct (heap σ !! p0) eqn:H0; [discriminate |].
  assert (p0 ≠ p) by congruence.
  destruct (ctor (world σ)) as [[e | o1] w']; inversion H; subst; simpl.
  - assumption.
  - rewrite lookup_insert_ne by assumption. assumption.
Qed.

(** [AForm::operator=] always returns; the object at [this] ends with the
    signed flag of the object at [other], and nothing else in the store
    changes.  When the two addresses are equal this is the store as it was. *)
Lemma AForm_operator_assign_eq (this other : loc) (σ : State object) (a b : object) :
  heap σ !! this = Some a →
  heap σ !! other = Some b →
  AForm_operator_assign this other σ
  = Some (inr tt,
          mkState (<[this := with_base (AForm.set_signed (AForm._signed (base b))) a]> (heap σ))
                  (set_cout (cout (world σ) ++ ["AForm assignment operator called"])
                            (world σ))).
Proof.
  intros Ha Hb. unfold AForm_operator_assign. rewrite Ha, Hb.
  destruct (decide (this ≠ other)) as [Hne | Heq]; [reflexivity |].
  assert (this = other) by (destruct (decide (this = other)); [assumption | contradiction]).
  subst other. assert (b = a) by congruence. subst b.
  do 3 f_equal. symmetry. apply insert_id. rewrite Ha. f_equal.
  destruct a as [c [n s gs ge] t]. reflexivity.
Qed.

Lemma Form_operator_assign_eq (this other : loc) (σ : State Form.t) (a b : Form.t) :
  heap σ !! this = Some a →
  heap σ !! other = Some b →
  Form.operator_assign this other σ
  = Some (inr tt,
          mkState (<[this := Form.set_signed (Form._signed b) a]> (heap σ))
                  (set_cout (cout (world σ) ++ ["Form assignment operator called"])
                            (world σ))).
Proof.
  intros Ha Hb. unfold Form.operator_assign. rewrite Ha, Hb.
  destruct (decide (this ≠ other)) as [Hne | Heq]; [reflexivity |].
  assert (this = other) by (destruct (decide (this = other)); [assumption | contradiction]).
  subst other. assert (b = a) by congruence. subst b.
  do 3 f_equal. symmetry. apply insert_id. rewrite Ha. f_equal.
  destruct a as [n s gs ge]. reflexivity.
Qed.

(** The copy assignment of a concrete class: as [AForm::operator=], and the
    target is copied too. *)
Lemma operator_assign_eq (C : FormClass) (this other : loc) (σ : State object)
    (a b : object) :
  heap σ !! this = Some a →
  heap σ !! other = Some b →
  dynamic_class a = C → dynamic_class b = C →
  ∃ w', operator_assign C this other σ
        = Some (inr tt,
                mkState (<[this := set_target (_target b)
                                     (with_base (AForm.set_signed (AForm._signed (base b))) a)]>
                           (heap σ)) w').
Proof.
  intros Ha Hb Ca Cb. unfold operator_assign. rewrite Ha, Hb.
  rewrite decide_True by (split; assumption).
  destruct (decide (this ≠ other)) as [Hne | Heq].
  - erewrite AForm_operator_assign_eq by (simpl; eassumption). simpl.
    eexists. do 3 f_equal.
    rewrite alter_insert_eq. reflexivity.
  - assert (this = other) by (destruct (decide (this = other)); [assumption | contradiction]).
    subst other. assert (b = a) by congruence. subst b.
    eexists. do 3 f_equal. symmetry. apply insert_id. rewrite Ha. f_equal.
    destruct a as [c [n s gs ge] t]. reflexivity.
Qed.

(** Every call leaves an object of the store in the store, with its
    constants, and changes its signed flag in one of two ways only: a
    successful [beSigned] on it sets the flag, and a copy assignment onto
    it gives it the flag of the source. *)
Lemma step_object (c : call) (p : loc) (σ σ' : State object)
    (r : exception + unit) (o : object) :
  step c σ = Some (r, σ') →
  heap σ !! p = Some o →
  ∃ o', heap σ' !! p = Some o' ∧ same_constants o o' ∧
    (AForm._signed (base o') = AForm._signed (base o)
     ∨ (∃ b, c = BeSigned p b ∧ r = inr tt ∧ AForm._signed (base o') = true)
     ∨ (∃ q oq, (c = AssignAForm p q ∨ ∃ C, c = Assign C p q) ∧
                heap σ !! q = Some oq ∧
                AForm._signed (base o') = AForm._signed (base oq))).
Proof.
  intros Hstep Hp.
  assert (frame : heap σ' !! p = Some o →
                  ∃ o', heap σ' !! p = Some o' ∧ same_constants o o' ∧
                    (AForm._signed (base o') = AForm._signed (base o)
                     ∨ (∃ b, c = BeSigned p b ∧ r = inr tt ∧ AForm._signed (base o') = true)
                     ∨ (∃ q oq, (c = AssignAForm p q ∨ ∃ C, c = Assign C p q) ∧
                                heap σ !! q = Some oq ∧
                                AForm._signed (base o') = AForm._signed (base oq)))).
  { intros H. exists o. split; [exact H |]. split; [apply same_constants_refl |].
    left; reflexivity. }
  destruct c as [C p0 | C p0 t | p0 k t | p0 q | p0 b | p0 b | p0 q | C p0 q];
    simpl in Hstep.
  - apply frame. eapply construct_at_frame; eassumption.
  - apply frame. eapply construct_at_frame; eassumption.
  - apply frame. eapply construct_at_frame; eassumption.
  - destruct (heap σ !! q); [| discriminate].
    apply frame. eapply construct_at_frame; eassumption.
  - unfold on_object in Hstep.
    destruct (heap σ !! p0) as [o0 |] eqn:H0; [| discriminate].
    destruct (beSigned b o0) as [r0 o1] eqn:Hb. inversion Hstep; subst; clear Hstep.
    simpl. destruct (decide (p0 = p)) as [-> | Hne].
    + rewrite lookup_insert_eq. assert (o0 = o) by congruence. subst o0.
      unfold beSigned in Hb.
      destruct (AForm_beSigned_cases b (base o)) as [[_ E] | [_ E]];
        rewrite E in Hb; inversion Hb; subst; clear Hb;
        eexists; (split; [reflexivity |]); (split; [repeat split |]).
      * right; left. exists b. repeat split.
      * left. reflexivity.
    + apply frame. simpl. rewrite lookup_insert_ne by assumption. assumption.
  - unfold on_world in Hstep.
    destruct (heap σ !! p0) as [o0 |]; [| discriminate].
    destruct (execute o0 b (world σ)) as [r0 w']. inversion Hstep; subst.
    apply frame. assumption.
  - destruct (heap σ !! p0) as [a |] eqn:Ha;
      [| unfold AForm_operator_assign in Hstep; rewrite Ha in Hstep; discriminate].
    destruct (heap σ !! q) as [oq |] eqn:Hq;
      [| unfold AForm_operator_assign in Hstep; rewrite Ha, Hq in Hstep; discriminate].
    rewrite (AForm_operator_assign_eq _ _ _ _ _ Ha Hq) in Hstep.
    inversion Hstep; subst; clear Hstep. simpl.
    destruct (decide (p0 = p)) as [-> | Hne].
    + rewrite lookup_insert_eq. assert (a = o) by congruence. subst a.
      eexists. split; [reflexivity |]. split; [repeat split |].
      right; right. exists q, oq. split; [left; reflexivity |]. split; [assumption |].
      reflexivity.
    + apply frame. simpl. rewrite lookup_insert_ne by assumption. assumption.
  - destruct (heap σ !! p0) as [a |] eqn:Ha;
      [| unfold operator_assign in Hstep; rewrite Ha in Hstep; discriminate].
    destruct (heap σ !! q) as [oq |] eqn:Hq;
      [| unfold operator_assign in Hstep; rewrite Ha, Hq in Hstep; discriminate].
    destruct (decide (dynamic_class a = C ∧ dynamic_class oq = C)) as [[Ca Cq] | Hn];
      [| unfold operator_assign in Hstep; rewrite Ha, Hq in Hstep;
         rewrite decide_False in Hstep by assumption; discriminate].
    destruct (operator_assign_eq C _ _ _ _ _ Ha Hq Ca Cq) as [w' E].
    rewrite E in Hstep. inversion Hstep; subst; clear Hstep. simpl.
    destruct (decide (p0 = p)) as [-> | Hne].
    + rewrite lookup_insert_eq. assert (a = o) by congruence. subst a.
      eexists. split; [reflexivity |]. split; [repeat split |].
      right; right. exists q, oq. split; [right; eexists; reflexivity |].
      split; [assumption |]. reflexivity.
    + apply frame. simpl. rewrite lookup_insert_ne by assumption. assumption.
Qed.

(** The same for the forms of ex01. *)
Lemma Form_step_object (c : Form.call) (p : loc) (σ σ' : State Form.t)
    (r : exception + unit) (f : Form.t) :
  Form.step c σ = Some (r, σ') →
  heap σ !! p = Some f →
  ∃ f', heap σ' !! p = Some f' ∧ Form_same_constants f f' ∧
    (Form._signed f' = Form._signed f
     ∨ (∃ b, c = Form.BeSigned p b ∧ r = inr tt ∧ Form._signed f' = true)
     ∨ (∃ q fq, c = Form.Assign p q ∧ heap σ !! q = Some fq ∧
                Form._signed f' = Form._signed fq)).
Proof.
  intros Hstep Hp.
  assert (frame : heap σ' !! p = Some f →
                  ∃ f', heap σ' !! p = Some f' ∧ Form_same_constants f f' ∧
                    (Form._signed f' = Form._signed f
                     ∨ (∃ b, c = Form.BeSigned p b ∧ r = inr tt ∧ Form._signed f' = true)
                     ∨ (∃ q fq, c = Form.Assign p q ∧ heap σ !! q = Some fq ∧
                                Form._signed f' = Form._signed fq))).
  { intros H. exists f. split; [exact H |]. split; [repeat split |]. left; reflexivity. }
  destruct c as [p0 | p0 n gs ge | p0 q | p0 b | p0 q]; simpl in Hstep.
  - apply frame. eapply construct_at_frame; eassumption.
  - apply frame. eapply construct_at_frame; eassumption.
  - destruct (heap σ !! q); [| discriminate].
    apply frame. eapply construct_at_frame; eassumption.
  - unfold on_object in Hstep.
    destruct (heap σ !! p0) as [f0 |] eqn:H0; [| discriminate].
    destruct (Form.beSigned b f0) as [r0 f1] eqn:Hb. inversion Hstep; subst; clear Hstep.
    simpl. destruct (decide (p0 = p)) as [-> | Hne].
    + rewrite lookup_insert_eq. assert (f0 = f) by congruence. subst f0.
      destruct (Form_beSigned_cases b f) as [[_ E] | [_ E]];
        rewrite E in Hb; inversion Hb; subst; clear Hb;
        eexists; (split; [reflexivity |]); (split; [repeat split |]).
      * right; left. exists b. repeat split.
      * left. reflexivity.
    + apply frame. simpl. rewrite lookup_insert_ne by assumption. assumption.
  - destruct (heap σ !! p0) as [a |] eqn:Ha;
      [| unfold Form.operator_assign in Hstep; rewrite Ha in Hstep; discriminate].
    destruct (heap σ !! q) as [fq |] eqn:Hq;
      [| unfold Form.operator_assign in Hstep; rewrite Ha, Hq in Hstep; discriminate].
    rewrite (Form_operator_assign_eq _ _ _ _ _ Ha Hq) in Hstep.
    inversion Hstep; subst; clear Hstep. simpl.
    destruct (decide (p0 = p)) as [-> | Hne].
    + rewrite lookup_insert_eq. assert (a = f) by congruence. subst a.
      eexists. split; [reflexivity |]. split; [repeat split |].
      right; right. exists q, fq. repeat split. assumption.
    + apply frame. simpl. rewrite lookup_insert_ne by assumption. assumption.
Qed.

(** ** Construction *)

Lemma AForm_new_eq (name : string) (s e : Z) (w : World) :
  AForm.new name s e w
  = let w' := set_cout (cout w ++ ["AForm parametric constructor called"]) w in
    if (s <? 1) || (e <? 1) then (inl AForm_GradeTooHighException, w')
    else if (s >? 150) || (e >? 150) then (inl AForm_GradeTooLowException, w')
    else (inr (AForm.mk name false s e), w').
Proof.
  unfold AForm.new. run_M.
  destruct ((s <? 1) || (e <? 1)); simpl; [reflexivity |].
  destruct ((s >? 150) || (e >? 150)); reflexivity.
Qed.

Lemma Form_new_eq (name : string) (s e : Z) (w : World) :
  Form.new name s e w
  = let w' := set_cout (cout w ++ ["Form parametric constructor called"]) w in
    if (s <? 1) || (e <? 1) then (inl Form_GradeTooHighException, w')
    else if (s >? 150) || (e >? 150) then (inl Form_GradeTooLowException, w')
    else (inr (Form.mk name false s e), w').
Proof.
  unfold Form.new. run_M.
  destruct ((s <? 1) || (e <? 1)); simpl; [reflexivity |].
  destruct ((s >? 150) || (e >? 150)); reflexivity.
Qed.

(** The constructors of the concrete classes always succeed: the grades
    they hand to [AForm::AForm] pass its checks. *)
Lemma new_eq (C : FormClass) (target : string) (w : World) :
  ∃ w', new C target w
        = (inr (mkObject C
                  match C with
                  | ShrubberyCreationForm => AForm.mk "Shrubbery Creation Form" false 145 137
                  | RobotomyRequestForm => AForm.mk "Robotomy Request Form" false 72 45
                  | PresidentialPardonForm => AForm.mk "Presidential Pardon Form" false 25 5
                  end target), w').
Proof. destruct C; eexists; reflexivity. Qed.

Lemma default_eq (C : FormClass) (w : World) :
  ∃ w', default C w
        = (inr (mkObject C
                  match C with
                  | ShrubberyCreationForm => AForm.mk "Shrubbery Creation Form" false 145 137
                  | RobotomyRequestForm => AForm.mk "Robotomy Request Form" false 72 45
                  | PresidentialPardonForm => AForm.mk "Presidential Pardon Form" false 25 5
                  end "default"), w').
Proof. destruct C; eexists; reflexivity. Qed.

(** [makeForm] goes through the three names in order. *)
Lemma makeForm_eq (formName target : string) (w : World) :
  makeForm formName target w
  = if String.eqb formName "shrubbery creation"
    then createShrubberyCreationForm target
           (set_cout (cout w ++ ["Intern creates " +:+ formName]) w)
    else if String.eqb formName "robotomy request"
    then createRobotomyRequestForm target
           (set_cout (cout w ++ ["Intern creates " +:+ formName]) w)
    else if String.eqb formName "presidential pardon"
    then createPresidentialPardonForm target
           (set_cout (cout w ++ ["Intern creates " +:+ formName]) w)
    else (inl Intern_FormNotFoundException,
          set_cout (cout w ++ ["Error: Form " +:+ dquote +:+ formName +:+ dquote
                                 +:+ " does not exist"]) w).
Proof.
  unfold makeForm. cbn [combine formNames formCreators makeForm_loop].
  destruct (String.eqb formName "shrubbery creation"); [reflexivity |].
  destruct (String.eqb formName "robotomy request"); [reflexivity |].
  destruct (String.eqb formName "presidential pardon"); reflexivity.
Qed.

Lemma makeForm_unsigned (formName target : string) (w w' : World) (o : object) :
  makeForm formName target w = (inr o, w') → AForm._signed (base o) = false.
Proof.
  rewrite makeForm_eq.
  destruct (String.eqb formName "shrubbery creation");
    [intros H; inversion H; reflexivity |].
  destruct (String.eqb formName "robotomy request");
    [intros H; inversion H; reflexivity |].
  destruct (String.eqb formName "presidential pardon");
    [intros H; inversion H; reflexivity | discriminate].
Qed.

(** An object the copy constructor brought to life has the signed flag of
    its source; an object any other call brought to life is unsigned. *)
Lemma step_creates (c : call) (p : loc) (σ σ' : State object)
    (r : exception + unit) (o' : object) :
  step c σ = Some (r, σ') →
  heap σ !! p = None →
  heap σ' !! p = Some o' →
  match c with
  | Copy _ q =>
      ∃ oq, heap σ !! q = Some oq ∧ AForm._signed (base o') = AForm._signed (base oq)
  | _ => AForm._signed (base o') = false
  end.
Proof.
  intros Hstep Hp Hp'.
  assert (ctor : ∀ p0 (m : M World object),
            construct_at p0 m σ = Some (r, σ') →
            ∃ w1 w2, m w1 = (inr o', w2) ∧ p0 = p).
  { intros p0 m H. unfold construct_at in H.
    destruct (heap σ !! p0); [discriminate |].
    destruct (m (world σ)) as [[e | o1] w2] eqn:Hm; inversion H; subst; simpl in Hp'.
    - congruence.
    - destruct (decide (p0 = p)) as [-> | Hne].
      + rewrite lookup_insert_eq in Hp'. inversion Hp'; subst. eauto.
      + rewrite lookup_insert_ne in Hp' by assumption. congruence. }
  destruct c as [C p0 | C p0 t | p0 k t | p0 q | p0 b | p0 b | p0 q | C p0 q];
    simpl in Hstep.
  - destruct (ctor _ _ Hstep) as (w1 & w2 & E & _).
    destruct (default_eq C w1) as [w3 E']. rewrite E' in E. inversion E; subst.
    destruct C; reflexivity.
  - destruct (ctor _ _ Hstep) as (w1 & w2 & E & _).
    destruct (new_eq C t w1) as [w3 E']. rewrite E' in E. inversion E; subst.
    destruct C; reflexivity.
  - destruct (ctor _ _ Hstep) as (w1 & w2 & E & _).
    eapply makeForm_unsigned; eassumption.
  - destruct (heap σ !! q) as [oq |] eqn:Hq; [| discriminate].
    destruct (ctor _ _ Hstep) as (w1 & w2 & E & ->).
    exists oq. split; [reflexivity |].
    unfold copy, AForm.copy in E. run_M. inversion E; subst. reflexivity.
  - exfalso. unfold on_object in Hstep.
    destruct (heap σ !! p0) as [o0 |] eqn:H0; [| discriminate].
    destruct (beSigned b o0) as [r0 o1]. inversion Hstep; subst. simpl in Hp'.
    assert (p0 ≠ p) by congruence.
    rewrite lookup_insert_ne in Hp' by assumption. congruence.
  - exfalso. unfold on_world in Hstep.
    destruct (heap σ !! p0) as [o0 |]; [| discriminate].
    destruct (execute o0 b (world σ)) as [r0 w']. inversion Hstep; subst.
    simpl in Hp'. congruence.
  - exfalso. unfold AForm_operator_assign in Hstep.
    destruct (heap σ !! p0) as [a |] eqn:Ha; [| discriminate].
    destruct (heap σ !! q) as [oq |]; [| discriminate].
    assert (p0 ≠ p) by congruence.
    destruct (decide (p0 ≠ q)); inversion Hstep; subst; simpl in Hp';
      [rewrite lookup_insert_ne in Hp' by assumption |]; congruence.
  - exfalso. unfold operator_assign in Hstep.
    destruct (heap σ !! p0) as [a |] eqn:Ha; [| discriminate].
    destruct (heap σ !! q) as [oq |] eqn:Hq; [| discriminate].
    destruct (decide (dynamic_class a = C ∧ dynamic_class oq = C)); [| discriminate].
    assert (p0 ≠ p) by congruence.
    destruct (decide (p0 ≠ q)).
    + erewrite AForm_operator_assign_eq in Hstep by (simpl; eassumption).
      inversion Hstep; subst; simpl in Hp'.
      rewrite lookup_alter_ne, lookup_insert_ne in Hp' by assumption. congruence.
    + inversion Hstep; subst; simpl in Hp'. congruence.
Qed.

Lemma Form_step_creates (c : Form.call) (p : loc) (σ σ' : State Form.t)
    (r : exception + unit) (f' : Form.t) :
  Form.step c σ = Some (r, σ') →
  heap σ !! p = None →
  heap σ' !! p = Some f' →
  match c with
  | Form.Copy _ q => ∃ fq, heap σ !! q = Some fq ∧ Form._signed f' = Form._signed fq
  | _ => Form._signed f' = false
  end.
Proof.
  intros Hstep Hp Hp'.
  assert (ctor : ∀ p0 (m : M World Form.t),
            construct_at p0 m σ = Some (r, σ') →
            ∃ w1 w2, m w1 = (inr f', w2) ∧ p0 = p).
  { intros p0 m H. unfold construct_at in H.
    destruct (heap σ !! p0); [discriminate |].
    destruct (m (world σ)) as [[e | o1] w2] eqn:Hm; inversion H; subst; simpl in Hp'.
    - congruence.
    - destruct (decide (p0 = p)) as [-> | Hne].
      + rewrite lookup_insert_eq in Hp'. inversion Hp'; subst. eauto.
      + rewrite lookup_insert_ne in Hp' by assumption. congruence. }
  destruct c as [p0 | p0 n gs ge | p0 q | p0 b | p0 q]; simpl in Hstep.
  - destruct (ctor _ _ Hstep) as (w1 & w2 & E & _).
    unfold Form.default in E. run_M. inversion E; reflexivity.
  - destruct (ctor _ _ Hstep) as (w1 & w2 & E & _).
    rewrite Form_new_eq in E. cbv zeta in E.
    destruct ((gs <? 1) || (ge <? 1)); [discriminate |].
    destruct ((gs >? 150) || (ge >? 150)); [discriminate |].
    inversion E; reflexivity.
  - destruct (heap σ !! q) as [fq |] eqn:Hq; [| discriminate].
    destruct (ctor _ _ Hstep) as (w1 & w2 & E & ->).
    exists fq. split; [reflexivity |].
    unfold Form.copy in E. run_M. inversion E; subst. reflexivity.
  - exfalso. unfold on_object in Hstep.
    destruct (heap σ !! p0) as [f0 |] eqn:H0; [| discriminate].
    destruct (Form.beSigned b f0) as [r0 f1]. inversion Hstep; subst. simpl in Hp'.
    assert (p0 ≠ p) by congruence.
    rewrite lookup_insert_ne in Hp' by assumption. congruence.
  - exfalso. unfold Form.operator_assign in Hstep.
    destruct (heap σ !! p0) as [a |] eqn:Ha; [| discriminate].
    destruct (heap σ !! q) as [fq |]; [| discriminate].
    assert (p0 ≠ p) by congruence.
    destruct (decide (p0 ≠ q)); inversion Hstep; subst; simpl in Hp';
      [rewrite lookup_insert_ne in Hp' by assumption |]; congruence.
Qed.

(** ** The signed flag over the life of a form *)

(** C3, as stated, fails: a form is built and signed, and a copy assignment
    from an unsigned form resets its flag. *)
Lemma assignment_resets_signed :
  (run build_and_sign empty_store ≫= signed_at 1) = Some true ∧
  (run sign_then_assign empty_store ≫= signed_at 1) = Some false.
Proof. split; vm_compute; reflexivity. Qed.

(** C3 (amended).  An object the copy constructor creates has the flag of
    its source, and an object any other call creates is unsigned.  A call
    turns the flag of an existing form from false to true only when it is a
    successful [beSigned] on it or a copy assignment onto it from a signed
    form, and from true to false only when it is a copy assignment onto it
    from an unsigned form: [beSigned] and [execute] never reset it.  Both
    for the concrete forms of ex02/ex03 and for the [Form] of ex01. *)
Theorem signed_set_by_sign_reset_by_assignment :
  (∀ (c : call) (p : loc) (σ σ' : State object) (r : exception + unit),
     step c σ = Some (r, σ') →
     (∀ o', heap σ !! p = None → heap σ' !! p = Some o' →
        match c with
        | Copy _ q =>
            ∃ oq, heap σ !! q = Some oq ∧
                  AForm._signed (base o') = AForm._signed (base oq)
        | _ => AForm._signed (base o') = false
        end) ∧
     (∀ o, heap σ !! p = Some o →
        ∃ o', heap σ' !! p = Some o' ∧
          (AForm._signed (base o) = false → AForm._signed (base o') = true →
             (∃ b, c = BeSigned p b ∧ r = inr tt)
             ∨ (∃ q oq, (c = AssignAForm p q ∨ ∃ C, c = Assign C p q) ∧
                        heap σ !! q = Some oq ∧ AForm._signed (base oq) = true)) ∧
          (AForm._signed (base o) = true → AForm._signed (base o') = false →
             ∃ q oq, (c = AssignAForm p q ∨ ∃ C, c = Assign C p q) ∧
                     heap σ !! q = Some oq ∧ AForm._signed (base oq) = false))) ∧
  (∀ (c : Form.call) (p : loc) (σ σ' : State Form.t) (r : exception + unit),
     Form.step c σ = Some (r, σ') →
     (∀ f', heap σ !! p = None → heap σ' !! p = Some f' →
        match c with
        | Form.Copy _ q =>
            ∃ fq, heap σ !! q = Some fq ∧ Form._signed f' = Form._signed fq
        | _ => Form._signed f' = false
        end) ∧
     (∀ f, heap σ !! p = Some f →
        ∃ f', heap σ' !! p = Some f' ∧
          (Form._signed f = false → Form._signed f' = true →
             (∃ b, c = Form.BeSigned p b ∧ r = inr tt)
             ∨ (∃ q fq, c = Form.Assign p q ∧ heap σ !! q = Some fq ∧
                        Form._signed fq = true)) ∧
          (Form._signed f = true → Form._signed f' = false →
             ∃ q fq, c = Form.Assign p q ∧ heap σ !! q = Some fq ∧
                     Form._signed fq = false))).
Proof.
  split; intros c p σ σ' r Hstep; split.
  - intros o'. apply step_creates with (r := r); assumption.
  - intros o Hp.
    destruct (step_object c p σ σ' r o Hstep Hp)
      as (o' & Hp' & _ & [Hsame | [(b & -> & -> & Hb) | (q & oq & Hc & Hq & Hs)]]);
      exists o'; (split; [exact Hp' |]); split; intros H0 H1.
    + congruence.
    + congruence.
    + left. exists b. split; reflexivity.
    + congruence.
    + right. exists q, oq. repeat split; try assumption. congruence.
    + exists q, oq. repeat split; try assumption. congruence.
  - intros f'. apply Form_step_creates with (r := r); assumption.
  - intros f Hp.
    destruct (Form_step_object c p σ σ' r f Hstep Hp)
      as (f' & Hp' & _ & [Hsame | [(b & -> & -> & Hb) | (q & fq & Hc & Hq & Hs)]]);
      exists f'; (split; [exact Hp' |]); split; intros H0 H1.
    + congruence.
    + congruence.
    + left. exists b. split; reflexivity.
    + congruence.
    + right. exists q, fq. repeat split; try assumption. congruence.
    + exists q, fq. repeat split; try assumption. congruence.
Qed.

(** On the store with Ford's signed pardon at 1 and Arthur's unsigned one at
    2: a copy of Ford's pardon built at 3 is signed, and assigning Arthur's
    pardon onto Ford's resets the flag of Ford's. *)
Lemma signed_set_by_sign_reset_by_assignment_witness :
  (∃ σ' o',
     step (Copy 3 1) two_pardons = Some (inr tt, σ') ∧
     heap σ' !! 3%positive = Some o' ∧
     AForm._signed (base o') = true) ∧
  (∃ σ' o',
     step (AssignAForm 1 2) two_pardons = Some (inr tt, σ') ∧
     heap σ' !! 1%positive = Some o' ∧
     AForm._signed (base o') = false ∧
     ∃ q oq, (AssignAForm 1 2 = AssignAForm 1 q ∨ ∃ C, AssignAForm 1 2 = Assign C 1 q) ∧
             heap two_pardons !! q = Some oq ∧ AForm._signed (base oq) = false).
Proof.
  split.
  - destruct (step (Copy 3 1) two_pardons) as [[r σ'] |] eqn:E;
      [| vm_compute in E; discriminate].
    assert (Hr : r = inr tt) by (vm_compute in E; inversion E; reflexivity).
    subst r.
    destruct (heap σ' !! 3%positive) as [o' |] eqn:Hp';
      [| vm_compute in E; inversion E; subst; vm_compute in Hp'; discriminate].
    destruct (proj1 (proj1 signed_set_by_sign_reset_by_assignment
                       (Copy 3 1) 3%positive two_pardons σ' (inr tt) E) o' eq_refl Hp')
      as (oq & Hq & Hs).
    exists σ', o'. split; [reflexivity |]. split; [exact Hp' |].
    rewrite Hs. vm_compute in Hq. inversion Hq. reflexivity.
  - pose proof (AForm_operator_assign_eq 1 2 two_pardons _ _ eq_refl eq_refl) as E.
    destruct (proj2 (proj1 signed_set_by_sign_reset_by_assignment
                       (AssignAForm 1 2) 1%positive two_pardons _ _ E) _ eq_refl)
      as (o' & Hp' & _ & Hreset).
    assert (Hs : AForm._signed (base o') = false).
    { simpl in Hp'. rewrite lookup_insert_eq in Hp'. inversion Hp'. reflexivity. }
    eexists _, o'. split; [exact E |]. split; [exact Hp' |]. split; [exact Hs |].
    apply Hreset; [reflexivity | exact Hs].
Defined.

(** ** Thresholds and name of a form *)

Ltac by_cases :=
  repeat split; intros; first [reflexivity | discriminate | lia | (exfalso; lia)].

(** C5. Building a form succeeds exactly when both grades lie in 1..150;
    the check for a grade below 1 comes first and throws GradeTooHigh,
    then a grade above 150 throws GradeTooLow.  After that no call changes
    the name or the two grades of a form in the store.  Both for [AForm]
    (and the concrete forms) and for [Form]. *)
Theorem thresholds_checked_at_construction_then_fixed :
  (∀ (name : string) (s e : Z) (w : World),
     (fst (AForm.new name s e w) = inr (AForm.mk name false s e)
        ↔ 1 <= s <= 150 ∧ 1 <= e <= 150) ∧
     (fst (AForm.new name s e w) = inl AForm_GradeTooHighException
        ↔ s < 1 ∨ e < 1) ∧
     (fst (AForm.new name s e w) = inl AForm_GradeTooLowException
        ↔ (1 <= s ∧ 1 <= e) ∧ (s > 150 ∨ e > 150))) ∧
  (∀ (name : string) (s e : Z) (w : World),
     (fst (Form.new name s e w) = inr (Form.mk name false s e)
        ↔ 1 <= s <= 150 ∧ 1 <= e <= 150) ∧
     (fst (Form.new name s e w) = inl Form_GradeTooHighException
        ↔ s < 1 ∨ e < 1) ∧
     (fst (Form.new name s e w) = inl Form_GradeTooLowException
        ↔ (1 <= s ∧ 1 <= e) ∧ (s > 150 ∨ e > 150))) ∧
  (∀ (c : call) (p : loc) (σ σ' : State object) (r : exception + unit) (o : object),
     step c σ = Some (r, σ') → heap σ !! p = Some o →
     ∃ o', heap σ' !! p = Some o' ∧ same_constants o o') ∧
  (∀ (c : Form.call) (p : loc) (σ σ' : State Form.t) (r : exception + unit) (f : Form.t),
     Form.step c σ = Some (r, σ') → heap σ !! p = Some f →
     ∃ f', heap σ' !! p = Some f' ∧ Form_same_constants f f').
Proof.
  split; [| split; [| split]].
  - intros name s e w. rewrite AForm_new_eq. cbv zeta.
    destruct (Z.ltb_spec s 1), (Z.ltb_spec e 1), (Z.gtb_spec s 150), (Z.gtb_spec e 150);
      cbn [orb fst]; by_cases.
  - intros name s e w. rewrite Form_new_eq. cbv zeta.
    destruct (Z.ltb_spec s 1), (Z.ltb_spec e 1), (Z.gtb_spec s 150), (Z.gtb_spec e 150);
      cbn [orb fst]; by_cases.
  - intros c p σ σ' r o Hstep Hp.
    destruct (step_object c p σ σ' r o Hstep Hp) as (o' & Hp' & Hc & _). eauto.
  - intros c p σ σ' r f Hstep Hp.
    destruct (Form_step_object c p σ σ' r f Hstep Hp) as (f' & Hp' & Hc & _). eauto.
Qed.

(** The forms of the ex01 test program: ("Tax Form", 50, 25) is built,
    ("Invalid Form", 0, 50) is too high, ("Invalid Form", 50, 151) too low;
    and a grade below 1 wins over a grade above 150. *)
Lemma thresholds_checked_at_construction_then_fixed_witness :
  fst (Form.new "Tax Form" 50 25 (world_at 0)) = inr (Form.mk "Tax Form" false 50 25) ∧
  fst (Form.new "Invalid Form" 0 50 (world_at 0)) = inl Form_GradeTooHighException ∧
  fst (Form.new "Invalid Form" 50 151 (world_at 0)) = inl Form_GradeTooLowException ∧
  fst (AForm.new "Invalid Form" 151 0 (world_at 0)) = inl AForm_GradeTooHighException.
Proof.
  pose proof thresholds_checked_at_construction_then_fixed as (HA & HF & _ & _).
  split; [| split; [| split]].
  - apply (HF "Tax Form" 50 25 (world_at 0)). lia.
  - apply (HF "Invalid Form" 0 50 (world_at 0)). lia.
  - apply (HF "Invalid Form" 50 151 (world_at 0)). lia.
  - apply (HA "Invalid Form" 151 0 (world_at 0)). lia.
Defined.

(** ** Copy assignment *)

(** C10. After [a = b] the form [a] has the signed flag of [b] and its own
    name and grades; no other object of the store changes.  In particular
    an unsigned [b] clears the flag of a signed [a].  Both for
    [AForm::operator=] and for [Form::operator=]; self-assignment is
    covered by the same statement.  The copy assignment of a concrete
    class does the same to the [AForm] part and copies the target, which
    is not a member of [AForm]. *)
Theorem assignment_copies_only_signed :
  (∀ (p q : loc) (σ : State object) (a b : object),
     heap σ !! p = Some a → heap σ !! q = Some b →
     ∃ σ' a',
       AForm_operator_assign p q σ = Some (inr tt, σ') ∧
       heap σ' !! p = Some a' ∧
       AForm._signed (base a') = AForm._signed (base b) ∧
       AForm._name (base a') = AForm._name (base a) ∧
       AForm._gradeToSign (base a') = AForm._gradeToSign (base a) ∧
       AForm._gradeToExecute (base a') = AForm._gradeToExecute (base a) ∧
       dynamic_class a' = dynamic_class a ∧
       _target a' = _target a ∧
       (∀ p', p' ≠ p → heap σ' !! p' = heap σ !! p')) ∧
  (∀ (p q : loc) (σ : State Form.t) (a b : Form.t),
     heap σ !! p = Some a → heap σ !! q = Some b →
     ∃ σ' a',
       Form.operator_assign p q σ = Some (inr tt, σ') ∧
       heap σ' !! p = Some a' ∧
       Form._signed a' = Form._signed b ∧
       Form._name a' = Form._name a ∧
       Form._gradeToSign a' = Form._gradeToSign a ∧
       Form._gradeToExecute a' = Form._gradeToExecute a ∧
       (∀ p', p' ≠ p → heap σ' !! p' = heap σ !! p')) ∧
  (∀ (C : FormClass) (p q : loc) (σ : State object) (a b : object),
     heap σ !! p = Some a → heap σ !! q = Some b →
     dynamic_class a = C → dynamic_class b = C →
     ∃ σ' a',
       operator_assign C p q σ = Some (inr tt, σ') ∧
       heap σ' !! p = Some a' ∧
       AForm._signed (base a') = AForm._signed (base b) ∧
       AForm._name (base a') = AForm._name (base a) ∧
       AForm._gradeToSign (base a') = AForm._gradeToSign (base a) ∧
       AForm._gradeToExecute (base a') = AForm._gradeToExecute (base a) ∧
       dynamic_class a' = dynamic_class a ∧
       _target a' = _target b ∧
       (∀ p', p' ≠ p → heap σ' !! p' = heap σ !! p')).
Proof.
  split; [| split].
  - intros p q σ a b Ha Hb.
    eexists _, _. split; [apply AForm_operator_assign_eq; eassumption |].
    simpl. split; [apply lookup_insert_eq |].
    repeat (split; [reflexivity |]).
    intros p' Hne. apply lookup_insert_ne. congruence.
  - intros p q σ a b Ha Hb.
    eexists _, _. split; [apply Form_operator_assign_eq; eassumption |].
    simpl. split; [apply lookup_insert_eq |].
    repeat (split; [reflexivity |]).
    intros p' Hne. apply lookup_insert_ne. congruence.
  - intros C p q σ a b Ha Hb Ca Cb.
    destruct (operator_assign_eq C p q σ a b Ha Hb Ca Cb) as [w' E].
    eexists _, _. split; [exact E |].
    simpl. split; [apply lookup_insert_eq |].
    repeat (split; [reflexivity |]).
    intros p' Hne. apply lookup_insert_ne. congruence.
Qed.

(** Assigning the unsigned form at 2 onto the signed form at 1 clears the
    flag of the form at 1. *)
Lemma assignment_copies_only_signed_witness :
  (∃ σ' a', AForm_operator_assign 1 2 two_pardons = Some (inr tt, σ') ∧
            heap σ' !! 1%positive = Some a' ∧
            AForm._signed (base a') = false ∧
            AForm._name (base a') = "Presidential Pardon Form" ∧
            _target a' = "Ford") ∧
  (∃ σ' a', Form.operator_assign 1 2 two_forms = Some (inr tt, σ') ∧
            heap σ' !! 1%positive = Some a' ∧
            Form._signed a' = false ∧
            Form._name a' = "Original Form" ∧
            Form._gradeToSign a' = 75 ∧ Form._gradeToExecute a' = 50).
Proof.
  split.
  - destruct (proj1 assignment_copies_only_signed 1%positive 2%positive two_pardons
                _ _ eq_refl eq_refl)
      as (σ' & a' & E & Hp & Hs & Hn & _ & _ & _ & Ht & _).
    exists σ', a'. repeat (split; [assumption |]). assumption.
  - destruct (proj1 (proj2 assignment_copies_only_signed) 1%positive 2%positive two_forms
                _ _ eq_refl eq_refl)
      as (σ' & a' & E & Hp & Hs & Hn & Hgs & Hge & _).
    exists σ', a'. repeat (split; [assumption |]). assumption.
Defined.

(** ** The grade of a bureaucrat *)

Lemma Bureaucrat_step_valid (c : Bureaucrat.call) (b : Bureaucrat.t) :
  Bureaucrat.valid b → Bureaucrat.valid (snd (Bureaucrat.step c b)).
Proof.
  unfold Bureaucrat.valid. intros Hv.
  destruct c; unfold Bureaucrat.step, Bureaucrat.incrementGrade, Bureaucrat.decrementGrade;
    run_M.
  - destruct (Z.ltb_spec (Bureaucrat._grade b - 1) 1); simpl; lia.
  - destruct (Z.gtb_spec (Bureaucrat._grade b + 1) 150); simpl; lia.
Qed.

Lemma Bureaucrat_run_valid (cs : list Bureaucrat.call) (b : Bureaucrat.t) :
  Bureaucrat.valid b → Bureaucrat.valid (Bureaucrat.run cs b).
Proof.
  revert b. induction cs as [| c cs IH]; intros b Hv; simpl.
  - exact Hv.
  - apply IH. apply Bureaucrat_step_valid. exact Hv.
Qed.

(** C4. A bureaucrat is built exactly for the grades 1..150; a grade below
    1 throws GradeTooHigh and a grade above 150 throws GradeTooLow.
    [incrementGrade] throws GradeTooHigh, leaving the grade, when the grade
    minus one would be below 1, and otherwise commits it; [decrementGrade]
    throws GradeTooLow when the grade plus one would be above 150, and
    otherwise commits it.  So 1 <= grade <= 150 after construction and
    after any run of the two calls. *)
Theorem bureaucrat_grade_stays_in_range :
  (∀ (name : string) (g : Z),
     (Bureaucrat.new name g = inr (Bureaucrat.mk name g) ↔ 1 <= g <= 150) ∧
     (Bureaucrat.new name g = inl Bureaucrat_GradeTooHighException ↔ g < 1) ∧
     (Bureaucrat.new name g = inl Bureaucrat_GradeTooLowException ↔ g > 150)) ∧
  (∀ b : Bureaucrat.t,
     (Bureaucrat.incrementGrade b = (inl Bureaucrat_GradeTooHighException, b)
        ↔ Bureaucrat._grade b - 1 < 1) ∧
     (Bureaucrat.incrementGrade b
        = (inr tt, Bureaucrat.mk (Bureaucrat._name b) (Bureaucrat._grade b - 1))
        ↔ 1 <= Bureaucrat._grade b - 1) ∧
     (Bureaucrat.decrementGrade b = (inl Bureaucrat_GradeTooLowException, b)
        ↔ Bureaucrat._grade b + 1 > 150) ∧
     (Bureaucrat.decrementGrade b
        = (inr tt, Bureaucrat.mk (Bureaucrat._name b) (Bureaucrat._grade b + 1))
        ↔ Bureaucrat._grade b + 1 <= 150)) ∧
  (∀ (name : string) (g : Z) (b : Bureaucrat.t) (cs : list Bureaucrat.call),
     Bureaucrat.new name g = inr b →
     Bureaucrat.valid b ∧ Bureaucrat.valid (Bureaucrat.run cs b)).
Proof.
  split; [| split].
  - intros name g. unfold Bureaucrat.new.
    destruct (Z.ltb_spec g 1), (Z.gtb_spec g 150); by_cases.
  - intros b. unfold Bureaucrat.incrementGrade, Bureaucrat.decrementGrade. run_M.
    destruct (Z.ltb_spec (Bureaucrat._grade b - 1) 1),
             (Z.gtb_spec (Bureaucrat._grade b + 1) 150); simpl; by_cases.
  - intros name g b cs Hnew.
    assert (Hv : Bureaucrat.valid b).
    { unfold Bureaucrat.new in Hnew. unfold Bureaucrat.valid.
      destruct (Z.ltb_spec g 1); [discriminate |].
      destruct (Z.gtb_spec g 150); [discriminate |].
      inversion Hnew; subst; simpl. lia. }
    split; [exact Hv | apply Bureaucrat_run_valid; exact Hv].
Qed.

(** The ex00 test program: grade 0 and grade 151 are refused; Frank at
    grade 1 cannot be incremented and Grace at 150 cannot be decremented. *)
Lemma bureaucrat_grade_stays_in_range_witness :
  Bureaucrat.new "Alice" 0 = inl Bureaucrat_GradeTooHighException ∧
  Bureaucrat.new "Charlie" 151 = inl Bureaucrat_GradeTooLowException ∧
  Bureaucrat.incrementGrade (Bureaucrat.mk "Frank" 1)
    = (inl Bureaucrat_GradeTooHighException, Bureaucrat.mk "Frank" 1) ∧
  Bureaucrat.decrementGrade (Bureaucrat.mk "Grace" 150)
    = (inl Bureaucrat_GradeTooLowException, Bureaucrat.mk "Grace" 150) ∧
  Bureaucrat.valid
    (Bureaucrat.run [Bureaucrat.IncrementGrade; Bureaucrat.IncrementGrade]
       (Bureaucrat.mk "Dave" 5)).
Proof.
  pose proof bureaucrat_grade_stays_in_range as (Hnew & Hmove & Hrun).
  split; [| split; [| split; [| split]]].
  - apply (Hnew "Alice" 0). lia.
  - apply (Hnew "Charlie" 151). lia.
  - apply (Hmove (Bureaucrat.mk "Frank" 1)). simpl. lia.
  - apply (Hmove (Bureaucrat.mk "Grace" 150)). simpl. lia.
  - apply (Hrun "Dave" 5). reflexivity.
Defined.

(** ** The factory and the concrete forms *)

Lemma eqb_formNames (formName : string) :
  formName ∈ formNames
  ↔ String.eqb formName "shrubbery creation" = true
    ∨ String.eqb formName "robotomy request" = true
    ∨ String.eqb formName "presidential pardon" = true.
Proof.
  unfold formNames. rewrite !elem_of_cons, elem_of_nil, !String.eqb_eq. tauto.
Qed.

(** C6. [makeForm] builds a form exactly for the three names
    "shrubbery creation", "robotomy request" and "presidential pardon",
    compared character by character, each giving the form of its class with
    the target; for every other name, the empty one too, it throws
    FormNotFound. *)
Theorem makeForm_knows_three_names (formName target : string) (w : World) :
  (formName = "shrubbery creation" →
     fst (makeForm formName target w)
     = inr (mkObject ShrubberyCreationForm
              (AForm.mk "Shrubbery Creation Form" false 145 137) target)) ∧
  (formName = "robotomy request" →
     fst (makeForm formName target w)
     = inr (mkObject RobotomyRequestForm
              (AForm.mk "Robotomy Request Form" false 72 45) target)) ∧
  (formName = "presidential pardon" →
     fst (makeForm formName target w)
     = inr (mkObject PresidentialPardonForm
              (AForm.mk "Presidential Pardon Form" false 25 5) target)) ∧
  (returns (makeForm formName target w) = true ↔ formName ∈ formNames) ∧
  (fst (makeForm formName target w) = inl Intern_FormNotFoundException
     ↔ formName ∉ formNames).
Proof.
  split; [intros ->; reflexivity |].
  split; [intros ->; reflexivity |].
  split; [intros ->; reflexivity |].
  rewrite eqb_formNames, makeForm_eq. unfold returns.
  destruct (String.eqb formName "shrubbery creation");
    [split; split; intros; first [reflexivity | discriminate | tauto] |].
  destruct (String.eqb formName "robotomy request");
    [split; split; intros; first [reflexivity | discriminate | tauto] |].
  destruct (String.eqb formName "presidential pardon");
    [split; split; intros; first [reflexivity | discriminate | tauto] |].
  cbn [fst]. split; split.
  - discriminate.
  - intros [H | [H | H]]; discriminate.
  - intros _ [H | [H | H]]; discriminate.
  - reflexivity.
Qed.

(** The ex03 test program: "robotomy request" gives a robotomy of Bender;
    "invalid form", the empty name and a name in other letter case are not
    found. *)
Lemma makeForm_knows_three_names_witness :
  fst (makeForm "robotomy request" "Bender" (world_at 0)) = inr bender ∧
  fst (makeForm "invalid form" "target" (world_at 0)) = inl Intern_FormNotFoundException ∧
  fst (makeForm EmptyString "target" (world_at 0)) = inl Intern_FormNotFoundException ∧
  fst (makeForm "Robotomy Request" "Bender" (world_at 0))
    = inl Intern_FormNotFoundException.
Proof.
  split; [| split; [| split]].
  - apply (makeForm_knows_three_names "robotomy request" "Bender" (world_at 0)).
    reflexivity.
  - apply (makeForm_knows_three_names "invalid form" "target" (world_at 0)).
    rewrite eqb_formNames. vm_compute. intros [H | [H | H]]; discriminate.
  - apply (makeForm_knows_three_names EmptyString "target" (world_at 0)).
    rewrite eqb_formNames. vm_compute. intros [H | [H | H]]; discriminate.
  - apply (makeForm_knows_three_names "Robotomy Request" "Bender" (world_at 0)).
    rewrite eqb_formNames. vm_compute. intros [H | [H | H]]; discriminate.
Defined.

(** C7. A shrubbery creation form is built with the grades 145 and 137, a
    robotomy request with 72 and 45, a presidential pardon with 25 and 5:
    by the constructor with a target, by the default constructor, and by
    [makeForm]. *)
Theorem concrete_forms_have_fixed_thresholds (target : string) (w : World) :
  thresholds_of (ShrubberyCreationForm_new target w) = Some (145, 137) ∧
  thresholds_of (RobotomyRequestForm_new target w) = Some (72, 45) ∧
  thresholds_of (PresidentialPardonForm_new target w) = Some (25, 5) ∧
  thresholds_of (ShrubberyCreationForm_default w) = Some (145, 137) ∧
  thresholds_of (RobotomyRequestForm_default w) = Some (72, 45) ∧
  thresholds_of (PresidentialPardonForm_default w) = Some (25, 5) ∧
  thresholds_of (makeForm "shrubbery creation" target w) = Some (145, 137) ∧
  thresholds_of (makeForm "robotomy request" target w) = Some (72, 45) ∧
  thresholds_of (makeForm "presidential pardon" target w) = Some (25, 5).
Proof. repeat split. Qed.

(** ** The action of a shrubbery creation form *)

Lemma c_str_no_NUL (s : string) : no_NUL s = true → c_str s = s.
Proof.
  induction s as [| c s IH]; simpl; [reflexivity |].
  destruct (Ascii.eqb c zero); simpl; [discriminate |].
  intros H. rewrite IH by assumption. reflexivity.
Qed.

Lemma no_NUL_append (s1 s2 : string) :
  no_NUL (s1 +:+ s2) = no_NUL s1 && no_NUL s2.
Proof.
  induction s1 as [| c s1 IH]; simpl; [reflexivity |].
  rewrite IH. destruct (Ascii.eqb c zero); reflexivity.
Qed.

(** C8, as stated, fails: when the file cannot be opened the action, and
    the [execute] that runs it, return normally; the failure is reported on
    the console only. *)
Lemma shrubbery_open_failure_is_not_thrown :
  let w := read_only {["garden_shrubbery"]} (world_at 0) in
  let r := execute (with_base (AForm.set_signed true) garden) charlie w in
  fst r = inr tt ∧
  fopen_log (snd r) = ["garden_shrubbery"] ∧
  files (snd r) = ∅ ∧
  cout (snd r) = ["Error: Could not create file garden_shrubbery"].
Proof. vm_compute. repeat split. Qed.

(** C8 (amended).  The action opens exactly one file, under the path made
    of the target followed by "_shrubbery" (read as a C string: for a target
    without a NUL character, that very string), and never throws.  When the
    file opens, it is emptied and receives the fixed text as far as the
    writes succeed: a leading part of the text, all of it when no write
    fails; no other file changes, and the action prints that the shrubbery
    has been planted and returns normally, whether the writes succeeded or
    not.  When the file does not open, the file system is left as it was
    and the action prints an error line and returns normally. *)
Theorem shrubbery_writes_one_file_and_returns (this : object) (w : World) :
  fst (ShrubberyCreationForm_executeAction this w) = inr tt ∧
  fopen_log (snd (ShrubberyCreationForm_executeAction this w))
    = (fopen_log w ++ [c_str (_target this +:+ "_shrubbery")])%list ∧
  (no_NUL (_target this) = true →
     c_str (_target this +:+ "_shrubbery") = _target this +:+ "_shrubbery") ∧
  (c_str (_target this +:+ "_shrubbery") ∉ unwritable w →
     files (snd (ShrubberyCreationForm_executeAction this w))
       = <[resolve w (c_str (_target this +:+ "_shrubbery")) :=
             written (write_budget w (resolve w (c_str (_target this +:+ "_shrubbery"))))
               shrubbery_text]> (files w) ∧
     (∃ rest,
        shrubbery_text
        = written (write_budget w (resolve w (c_str (_target this +:+ "_shrubbery"))))
            shrubbery_text +:+ rest) ∧
     (fits (write_budget w (resolve w (c_str (_target this +:+ "_shrubbery"))))
        shrubbery_text = true →
      files (snd (ShrubberyCreationForm_executeAction this w))
        = <[resolve w (c_str (_target this +:+ "_shrubbery")) := shrubbery_text]>
            (files w)) ∧
     cout (snd (ShrubberyCreationForm_executeAction this w))
       = (cout w ++ ["Shrubbery has been planted at " +:+ _target this])%list) ∧
  (c_str (_target this +:+ "_shrubbery") ∈ unwritable w →
     files (snd (ShrubberyCreationForm_executeAction this w)) = files w ∧
     cout (snd (ShrubberyCreationForm_executeAction this w))
       = (cout w ++ ["Error: Could not create file " +:+ _target this +:+ "_shrubbery"])%list).
Proof.
  rewrite ShrubberyCreationForm_executeAction_eq. cbv zeta.
  split; [destruct (bool_decide _); reflexivity |].
  split; [destruct (bool_decide _); reflexivity |].
  split.
  { intros H. apply c_str_no_NUL. rewrite no_NUL_append, H. reflexivity. }
  split; intros H.
  - rewrite bool_decide_eq_false_2 by assumption. cbn [snd files set_cout set_files cout].
    split; [reflexivity |].
    split; [apply written_prefix |].
    split; [| reflexivity].
    intros Hfit. rewrite written_fits by assumption. reflexivity.
  - rewrite bool_decide_eq_true_2 by assumption. split; reflexivity.
Qed.

(** Dave's shrubbery "garden" of the test program: in a world where the file
    can be written it holds the text; in a world where the file takes 12
    bytes it holds the first line and three characters of the second, and
    the action still says the shrubbery has been planted; in a world where
    the file cannot be opened nothing is written. *)
Lemma shrubbery_writes_one_file_and_returns_witness :
  files (snd (ShrubberyCreationForm_executeAction garden (world_at 0)))
    = {["garden_shrubbery" := shrubbery_text]} ∧
  (files (snd (ShrubberyCreationForm_executeAction garden
                 (short_of_room 12 (world_at 0))))
     = {["garden_shrubbery" := "       ^" +:+ endl +:+ "   "]} ∧
   ShrubberyCreationForm_executeAction garden (short_of_room 12 (world_at 0))
     = (inr tt,
        snd (ShrubberyCreationForm_executeAction garden (short_of_room 12 (world_at 0)))) ∧
   cout (snd (ShrubberyCreationForm_executeAction garden
                (short_of_room 12 (world_at 0))))
     = ["Shrubbery has been planted at garden"]) ∧
  files (snd (ShrubberyCreationForm_executeAction garden
                (read_only {["garden_shrubbery"]} (world_at 0)))) = ∅.
Proof.
  split; [| split].
  - destruct (shrubbery_writes_one_file_and_returns garden (world_at 0))
      as (_ & _ & _ & Hopen & _).
    destruct Hopen as (_ & _ & Hfull & _); [vm_compute; set_solver |].
    rewrite Hfull by reflexivity. reflexivity.
  - destruct (shrubbery_writes_one_file_and_returns garden (short_of_room 12 (world_at 0)))
      as (Hret & _ & _ & Hopen & _).
    destruct Hopen as (Hfiles & _ & _ & Hcout); [vm_compute; set_solver |].
    split; [rewrite Hfiles; reflexivity |].
    split; [| rewrite Hcout; reflexivity].
    rewrite <- Hret. destruct (ShrubberyCreationForm_executeAction garden _). reflexivity.
  - destruct (shrubbery_writes_one_file_and_returns garden
                (read_only {["garden_shrubbery"]} (world_at 0)))
      as (_ & _ & _ & _ & Hclosed).
    destruct Hclosed as [Hfiles _]; [vm_compute; set_solver |].
    rewrite Hfiles. reflexivity.
Defined.

(** ** The action of a robotomy request form *)

Lemma robotomy_outcomes_differ (target : string) :
  robotomy_success target ≠ robotomy_failure target.
Proof.
  intros H. apply (f_equal String.length) in H.
  unfold robotomy_success, robotomy_failure in H.
  rewrite !length_append in H. simpl in H. lia.
Qed.

(** C9. The action of a robotomy request calls [rand()] once and returns
    normally whatever it draws: it prints the drilling line and then one of
    two different lines, the success line when the draw is true and the
    failure line when it is false. *)
Theorem robotomy_draws_once_and_returns (this : object) (w : World) :
  fst (RobotomyRequestForm_executeAction this w) = inr tt ∧
  rand_calls (snd (RobotomyRequestForm_executeAction this w)) = S (rand_calls w) ∧
  cout (snd (RobotomyRequestForm_executeAction this w))
    = (cout w ++ [ "* DRILLING NOISES * BZZZZZZT * WHIRRRRR * CLANK *";
                   if drawn w
                   then robotomy_success (_target this)
                   else robotomy_failure (_target this) ])%list ∧
  robotomy_success (_target this) ≠ robotomy_failure (_target this) ∧
  files (snd (RobotomyRequestForm_executeAction this w)) = files w.
Proof.
  unfold RobotomyRequestForm_executeAction, time_NULL, srand, rand, drawn. run_M.
  destruct (libc_rand w (to_unsigned_int (clock w))) as [r s'] eqn:E. simpl.
  destruct (Z.rem r 2 =? 0); simpl; rewrite <- !app_assoc; simpl;
    (repeat split; try reflexivity); apply robotomy_outcomes_differ.
Qed.

(** Both draws happen: with a generator answering 0 Bender is robotomized,
    with one answering 1 the robotomy fails; either way the call returns. *)
Lemma robotomy_draws_once_and_returns_witness :
  RobotomyRequestForm_executeAction bender (world_drawing 0)
    = (inr tt,
       set_rand_calls 1
         (set_cout [ "* DRILLING NOISES * BZZZZZZT * WHIRRRRR * CLANK *";
                     "Bender has been robotomized successfully!" ]
            (world_drawing 0))) ∧
  cout (snd (RobotomyRequestForm_executeAction bender (world_drawing 1)))
    = [ "* DRILLING NOISES * BZZZZZZT * WHIRRRRR * CLANK *";
        "Robotomy of Bender has failed!" ] ∧
  fst (RobotomyRequestForm_executeAction bender (world_drawing 1)) = inr tt.
Proof.
  split; [reflexivity |].
  destruct (robotomy_draws_once_and_returns bender (world_drawing 1))
    as (Hret & _ & Hcout & _ & _).
  split; [rewrite Hcout; reflexivity | exact Hret].
Defined.

(** * Further properties of the classes *)

(** ** Grades and permissions *)

(** X1. For signing, a better grade never loses a permission and the form
    does not record its signer: when a bureaucrat can sign a form, every
    bureaucrat with a grade at least as good signs it too, with the very
    same outcome.  For [AForm::beSigned] and [Form::beSigned]. *)
Theorem better_grade_signs_alike :
  (∀ (b1 b2 : Bureaucrat.t) (f : AForm.t),
     Bureaucrat.getGrade b1 <= Bureaucrat.getGrade b2 →
     fst (AForm.beSigned b2 f) = inr tt →
     AForm.beSigned b1 f = AForm.beSigned b2 f) ∧
  (∀ (b1 b2 : Bureaucrat.t) (f : Form.t),
     Bureaucrat.getGrade b1 <= Bureaucrat.getGrade b2 →
     fst (Form.beSigned b2 f) = inr tt →
     Form.beSigned b1 f = Form.beSigned b2 f).
Proof.
  split; intros b1 b2 f Hle Hok.
  - destruct (AForm_beSigned_cases b2 f) as [[H2 E2] | [_ E2]];
      [| rewrite E2 in Hok; discriminate].
    destruct (AForm_beSigned_cases b1 f) as [[_ E1] | [H1 _]]; [congruence | lia].
  - destruct (Form_beSigned_cases b2 f) as [[H2 E2] | [_ E2]];
      [| rewrite E2 in Hok; discriminate].
    destruct (Form_beSigned_cases b1 f) as [[_ E1] | [H1 _]]; [congruence | lia].
Qed.

(** Dave (grade 150) can sign the default form of ex01, so Charlie (grade
    1) signs it with the same outcome. *)
Lemma better_grade_signs_alike_witness :
  Form.beSigned charlie (Form.mk "Default Form" false 150 150)
  = Form.beSigned dave (Form.mk "Default Form" false 150 150).
Proof.
  apply (proj2 better_grade_signs_alike charlie dave).
  - simpl. lia.
  - reflexivity.
Defined.

(** X2. For execution too: when [execute] returns normally for an
    executor, it ends in the very same way, with the same effects, for every
    executor with a grade at least as good.  Whatever the overrider of
    [executeAction] is. *)
Theorem better_grade_executes_alike
    (action : M World unit) (d : AForm.t) (b1 b2 : Bureaucrat.t) (w : World) :
  Bureaucrat.getGrade b1 <= Bureaucrat.getGrade b2 →
  fst (AForm.execute action d b2 w) = inr tt →
  AForm.execute action d b1 w = AForm.execute action d b2 w.
Proof.
  intros Hle Hok.
  destruct (AForm._signed d) eqn:Hs.
  - destruct (Z_le_gt_dec (Bureaucrat.getGrade b2) (AForm._gradeToExecute d))
      as [H2 | H2].
    + rewrite !AForm_execute_action by (assumption || lia). reflexivity.
    + rewrite (AForm_execute_low action d b2 w Hs H2) in Hok. discriminate.
  - rewrite (AForm_execute_unsigned action d b2 w Hs) in Hok. discriminate.
Qed.

(** Alice (grade 30) can execute the signed robotomy of Bender, so Charlie
    (grade 1) executes it alike. *)
Lemma better_grade_executes_alike_witness :
  execute (with_base (AForm.set_signed true) bender) charlie (world_at 0)
  = execute (with_base (AForm.set_signed true) bender) alice (world_at 0).
Proof.
  apply (better_grade_executes_alike
           (executeAction (with_base (AForm.set_signed true) bender))
           (AForm.set_signed true (base bender)) charlie alice (world_at 0)).
  - simpl. lia.
  - reflexivity.
Defined.

(** ** What a call leaves alone *)

Lemma construct_at_heap {T : Type} (p : loc) (ctor : M World T)
    (σ σ' : State T) (r : exception + unit) :
  construct_at p ctor σ = Some (r, σ') →
  heap σ' = heap σ ∨ (r = inr tt ∧ ∃ o', heap σ' = <[p := o']> (heap σ)).
Proof.
  unfold construct_at. intros H.
  destruct (heap σ !! p); [discriminate |].
  destruct (ctor (world σ)) as [[e | o] w']; inversion H; subst; simpl.
  - left. reflexivity.
  - right. eauto.
Qed.

(** A call gives the store back as it was, up to the object it was made
    on; and when it throws, that object is as it was too. *)
Lemma step_heap (c : call) (σ σ' : State object) (r : exception + unit) :
  step c σ = Some (r, σ') →
  heap σ' = heap σ
  ∨ (r = inr tt ∧ ∃ o', heap σ' = <[receiver c := o']> (heap σ)).
Proof.
  intros Hstep.
  destruct c as [C p | C p t | p k t | p q | p b | p b | p q | C p q];
    simpl in Hstep; simpl receiver.
  - eapply construct_at_heap; eassumption.
  - eapply construct_at_heap; eassumption.
  - eapply construct_at_heap; eassumption.
  - destruct (heap σ !! q); [| discriminate].
    eapply construct_at_heap; eassumption.
  - unfold on_object in Hstep.
    destruct (heap σ !! p) as [o |] eqn:Hp; [| discriminate].
    unfold beSigned in Hstep.
    destruct (AForm_beSigned_cases b (base o)) as [[_ E] | [_ E]];
      rewrite E in Hstep; inversion Hstep; subst; simpl.
    + right. eauto.
    + left. apply insert_id. rewrite Hp. f_equal.
      destruct o as [c [n s gs ge] t]. reflexivity.
  - unfold on_world in Hstep.
    destruct (heap σ !! p); [| discriminate].
    destruct (execute o b (world σ)). inversion Hstep; subst. left. reflexivity.
  - destruct (heap σ !! p) as [a |] eqn:Ha;
      [| unfold AForm_operator_assign in Hstep; rewrite Ha in Hstep; discriminate].
    destruct (heap σ !! q) as [oq |] eqn:Hq;
      [| unfold AForm_operator_assign in Hstep; rewrite Ha, Hq in Hstep; discriminate].
    rewrite (AForm_operator_assign_eq _ _ _ _ _ Ha Hq) in Hstep.
    inversion Hstep; subst. right. simpl. eauto.
  - destruct (heap σ !! p) as [a |] eqn:Ha;
      [| unfold operator_assign in Hstep; rewrite Ha in Hstep; discriminate].
    destruct (heap σ !! q) as [oq |] eqn:Hq;
      [| unfold operator_assign in Hstep; rewrite Ha, Hq in Hstep; discriminate].
    destruct (decide (dynamic_class a = C ∧ dynamic_class oq = C)) as [[Ca Cq] | Hn];
      [| unfold operator_assign in Hstep; rewrite Ha, Hq in Hstep;
         rewrite decide_False in Hstep by assumption; discriminate].
    destruct (operator_assign_eq C _ _ _ _ _ Ha Hq Ca Cq) as [w' E].
    rewrite E in Hstep. inversion Hstep; subst. right. simpl. eauto.
Qed.

Lemma Form_step_heap (c : Form.call) (σ σ' : State Form.t) (r : exception + unit) :
  Form.step c σ = Some (r, σ') →
  heap σ' = heap σ
  ∨ (r = inr tt ∧ ∃ f', heap σ' = <[Form_receiver c := f']> (heap σ)).
Proof.
  intros Hstep.
  destruct c as [p | p n gs ge | p q | p b | p q]; simpl in Hstep; simpl Form_receiver.
  - eapply construct_at_heap; eassumption.
  - eapply construct_at_heap; eassumption.
  - destruct (heap σ !! q); [| discriminate].
    eapply construct_at_heap; eassumption.
  - unfold on_object in Hstep.
    destruct (heap σ !! p) as [f |] eqn:Hp; [| discriminate].
    destruct (Form_beSigned_cases b f) as [[_ E] | [_ E]];
      rewrite E in Hstep; inversion Hstep; subst; simpl.
    + right. eauto.
    + left. apply insert_id. assumption.
  - destruct (heap σ !! p) as [a |] eqn:Ha;
      [| unfold Form.operator_assign in Hstep; rewrite Ha in Hstep; discriminate].
    destruct (heap σ !! q) as [fq |] eqn:Hq;
      [| unfold Form.operator_assign in Hstep; rewrite Ha, Hq in Hstep; discriminate].
    rewrite (Form_operator_assign_eq _ _ _ _ _ Ha Hq) in Hstep.
    inversion Hstep; subst. right. simpl. eauto.
Qed.

(** X3. A call changes no object but the one it is made on: the source of
    a copy construction or of a copy assignment, and every other form of
    the store, are as they were.  For the concrete forms and for the forms
    of ex01. *)
Theorem call_changes_its_receiver_only :
  (∀ (c : call) (σ σ' : State object) (r : exception + unit) (p : loc),
     step c σ = Some (r, σ') → p ≠ receiver c → heap σ' !! p = heap σ !! p) ∧
  (∀ (c : Form.call) (σ σ' : State Form.t) (r : exception + unit) (p : loc),
     Form.step c σ = Some (r, σ') → p ≠ Form_receiver c → heap σ' !! p = heap σ !! p).
Proof.
  split; intros c σ σ' r p Hstep Hne.
  - destruct (step_heap c σ σ' r Hstep) as [-> | (_ & o' & ->)]; [reflexivity |].
    apply lookup_insert_ne. congruence.
  - destruct (Form_step_heap c σ σ' r Hstep) as [-> | (_ & f' & ->)]; [reflexivity |].
    apply lookup_insert_ne. congruence.
Qed.

(** Assigning Arthur's pardon onto Ford's leaves Arthur's as it was. *)
Lemma call_changes_its_receiver_only_witness :
  ∃ σ', step (AssignAForm 1 2) two_pardons = Some (inr tt, σ') ∧
        heap σ' !! 2%positive = Some arthur.
Proof.
  pose proof (AForm_operator_assign_eq 1 2 two_pardons _ _ eq_refl eq_refl) as E.
  pose proof (proj1 call_changes_its_receiver_only (AssignAForm 1 2) two_pardons _ _
                2%positive E) as Hsame.
  eexists. split; [exact E |].
  etransitivity; [apply Hsame; discriminate | reflexivity].
Defined.

Lemma construct_at_throws {T : Type} (p : loc) (ctor : M World T)
    (σ σ' : State T) (e : exception) :
  construct_at p ctor σ = Some (inl e, σ') →
  ∃ w', ctor (world σ) = (inl e, w').
Proof.
  unfold construct_at. intros H.
  destruct (heap σ !! p); [discriminate |].
  destruct (ctor (world σ)) as [[e0 | o] w']; inversion H; subst. eauto.
Qed.

Lemma execute_throws (o : object) (b : Bureaucrat.t) (w w' : World) (e : exception) :
  execute o b w = (inl e, w') →
  w' = w ∧ (e = AForm_FormNotSignedException ∨ e = AForm_GradeTooLowException).
Proof.
  unfold execute. intros H.
  destruct (AForm._signed (base o)) eqn:Hs.
  - destruct (Z_le_gt_dec (Bureaucrat.getGrade b) (AForm._gradeToExecute (base o)))
      as [Hg | Hg].
    + rewrite AForm_execute_action in H by assumption.
      pose proof (executeAction_returns o w) as Hr. rewrite H in Hr. discriminate.
    + rewrite AForm_execute_low in H by assumption. inversion H. auto.
  - rewrite AForm_execute_unsigned in H by assumption. inversion H. auto.
Qed.

(** X4. A call that throws leaves every object of the store as it was: the
    constructors throw before an object exists, and [beSigned] and
    [execute] throw before they change anything.  A [beSigned] or an
    [execute] that throws has no effect at all: nothing is printed, no file
    is written and no number is drawn. *)
Theorem throwing_call_changes_no_object :
  (∀ (c : call) (σ σ' : State object) (e : exception),
     step c σ = Some (inl e, σ') → heap σ' = heap σ) ∧
  (∀ (c : Form.call) (σ σ' : State Form.t) (e : exception),
     Form.step c σ = Some (inl e, σ') → heap σ' = heap σ) ∧
  (∀ (p : loc) (b : Bureaucrat.t) (σ σ' : State object) (e : exception),
     step (BeSigned p b) σ = Some (inl e, σ') ∨ step (Execute p b) σ = Some (inl e, σ') →
     σ' = σ).
Proof.
  split; [| split].
  - intros c σ σ' e Hstep.
    destruct (step_heap c σ σ' _ Hstep) as [H | (H & _)]; [exact H | discriminate].
  - intros c σ σ' e Hstep.
    destruct (Form_step_heap c σ σ' _ Hstep) as [H | (H & _)]; [exact H | discriminate].
  - intros p b σ σ' e [Hstep | Hstep].
    + destruct (step_heap _ σ σ' _ Hstep) as [H | (H & _)]; [| discriminate].
      simpl in Hstep. unfold on_object in Hstep.
      destruct (heap σ !! p); [| discriminate].
      destruct (beSigned b o). inversion Hstep; subst. simpl in H.
      destruct σ as [h w]. simpl in *. rewrite H. reflexivity.
    + simpl in Hstep. unfold on_world in Hstep.
      destruct (heap σ !! p) as [o |]; [| discriminate].
      destruct (execute o b (world σ)) as [r0 w'] eqn:He. inversion Hstep; subst.
      destruct (execute_throws _ _ _ _ _ He) as [-> _].
      destruct σ; reflexivity.
Qed.

(** Bob (grade 100) fails to sign Arthur's pardon: the store keeps both
    pardons as they were. *)
Lemma throwing_call_changes_no_object_witness :
  ∃ σ', step (BeSigned 2 bob) two_pardons = Some (inl AForm_GradeTooLowException, σ') ∧
        heap σ' = heap two_pardons.
Proof.
  assert (E : step (BeSigned 2 bob) two_pardons
              = Some (inl AForm_GradeTooLowException,
                      mkState (<[2%positive := arthur]> (heap two_pardons))
                              (world two_pardons))) by reflexivity.
  eexists. split; [exact E |].
  exact (proj1 throwing_call_changes_no_object _ _ _ _ E).
Defined.

(** X5. The exceptions a call can end with.  On a store of concrete forms
    [beSigned] throws GradeTooLow only, [execute] FormNotSigned or
    GradeTooLow only, [makeForm] FormNotFound only, and then the name is
    none of the three; the constructors of the concrete classes and the
    copy assignments never throw, so GradeTooHigh never shows up.  On a
    store of the forms of ex01 only the constructor with grades and
    [beSigned] throw. *)
Theorem exceptions_of_each_call :
  (∀ (c : call) (σ σ' : State object) (e : exception),
     step c σ = Some (inl e, σ') →
     match c with
     | BeSigned _ _ => e = AForm_GradeTooLowException
     | Execute _ _ =>
         e = AForm_FormNotSignedException ∨ e = AForm_GradeTooLowException
     | MakeForm _ formName _ =>
         e = Intern_FormNotFoundException ∧ formName ∉ formNames
     | _ => False
     end) ∧
  (∀ (c : Form.call) (σ σ' : State Form.t) (e : exception),
     Form.step c σ = Some (inl e, σ') →
     match c with
     | Form.New _ _ gs ge =>
         (e = Form_GradeTooHighException ∧ (gs < 1 ∨ ge < 1))
         ∨ (e = Form_GradeTooLowException ∧ (gs > 150 ∨ ge > 150))
     | Form.BeSigned _ _ => e = Form_GradeTooLowException
     | _ => False
     end).
Proof.
  split; intros c σ σ' e Hstep.
  - destruct c as [C p | C p t | p k t | p q | p b | p b | p q | C p q];
      simpl in Hstep.
    + destruct (construct_at_throws _ _ _ _ _ Hstep) as [w' E].
      destruct (default_eq C (world σ)) as [w2 E']. congruence.
    + destruct (construct_at_throws _ _ _ _ _ Hstep) as [w' E].
      destruct (new_eq C t (world σ)) as [w2 E']. congruence.
    + destruct (construct_at_throws _ _ _ _ _ Hstep) as [w' E].
      rewrite makeForm_eq in E. rewrite eqb_formNames.
      destruct (String.eqb k "shrubbery creation"); [inversion E |].
      destruct (String.eqb k "robotomy request"); [inversion E |].
      destruct (String.eqb k "presidential pardon"); [inversion E |].
      inversion E. split; [reflexivity |]. intros [H | [H | H]]; discriminate.
    + destruct (heap σ !! q); [| discriminate].
      destruct (construct_at_throws _ _ _ _ _ Hstep) as [w' E].
      unfold copy, AForm.copy in E. run_M. discriminate.
    + unfold on_object in Hstep.
      destruct (heap σ !! p) as [o |]; [| discriminate].
      unfold beSigned in Hstep.
      destruct (AForm_beSigned_cases b (base o)) as [[_ E] | [_ E]];
        rewrite E in Hstep; inversion Hstep; reflexivity.
    + unfold on_world in Hstep.
      destruct (heap σ !! p) as [o |]; [| discriminate].
      destruct (execute o b (world σ)) as [r0 w'] eqn:He. inversion Hstep; subst.
      apply (execute_throws _ _ _ _ _ He).
    + unfold AForm_operator_assign in Hstep.
      destruct (heap σ !! p); [| discriminate].
      destruct (heap σ !! q); [| discriminate].
      destruct (decide (p ≠ q)); discriminate.
    + unfold operator_assign in Hstep.
      destruct (heap σ !! p) as [a |] eqn:Ha; [| discriminate].
      destruct (heap σ !! q) as [oq |] eqn:Hq; [| discriminate].
      destruct (decide (dynamic_class a = C ∧ dynamic_class oq = C)); [| discriminate].
      destruct (decide (p ≠ q)); [| discriminate].
      erewrite AForm_operator_assign_eq in Hstep by (simpl; eassumption).
      discriminate.
  - destruct c as [p | p n gs ge | p q | p b | p q]; simpl in Hstep.
    + destruct (construct_at_throws _ _ _ _ _ Hstep) as [w' E].
      unfold Form.default in E. run_M. discriminate.
    + destruct (construct_at_throws _ _ _ _ _ Hstep) as [w' E].
      rewrite Form_new_eq in E. cbv zeta in E.
      destruct (Z.ltb_spec gs 1), (Z.ltb_spec ge 1); cbn [orb] in E;
        try (inversion E; left; split; [reflexivity | lia]).
      destruct (Z.gtb_spec gs 150), (Z.gtb_spec ge 150); cbn [orb] in E;
        try (inversion E; right; split; [reflexivity | lia]).
      discriminate.
    + destruct (heap σ !! q); [| discriminate].
      destruct (construct_at_throws _ _ _ _ _ Hstep) as [w' E].
      unfold Form.copy in E. run_M. discriminate.
    + unfold on_object in Hstep.
      destruct (heap σ !! p) as [f |]; [| discriminate].
      destruct (Form_beSigned_cases b f) as [[_ E] | [_ E]];
        rewrite E in Hstep; inversion Hstep; reflexivity.
    + unfold Form.operator_assign in Hstep.
      destruct (heap σ !! p); [| discriminate].
      destruct (heap σ !! q); [| discriminate].
      destruct (decide (p ≠ q)); discriminate.
Qed.

(** An intern asked for an "invalid form" ends with FormNotFound; the name
    is none of the three. *)
Lemma exceptions_of_each_call_witness :
  "invalid form" ∉ formNames.
Proof.
  assert (E : step (MakeForm 1 "invalid form" "target") empty_store
              = Some (inl Intern_FormNotFoundException,
                      mkState ∅ (snd (makeForm "invalid form" "target" (world_at 0)))))
    by reflexivity.
  exact (proj2 (proj1 exceptions_of_each_call _ _ _ _ E)).
Defined.

(** ** The forms of a store that calls have built *)

(** The copy constructors never throw and build an object equal to their
    source, signed flag and target included. *)
Lemma copy_eq (o : object) (w : World) : ∃ w', copy o w = (inr o, w').
Proof.
  unfold copy, AForm.copy. run_M. eexists. f_equal.
  destruct o as [c [n s gs ge] t]. reflexivity.
Qed.

Lemma Form_copy_eq (f : Form.t) (w : World) : ∃ w', Form.copy f w = (inr f, w').
Proof.
  unfold Form.copy. run_M. eexists. f_equal. destruct f. reflexivity.
Qed.

Lemma new_well_formed (C : FormClass) (target : string) (w w' : World) (o : object) :
  new C target w = (inr o, w') → well_formed o.
Proof.
  destruct (new_eq C target w) as [w2 E]. rewrite E. intros H. inversion H; subst.
  destruct C; repeat split.
Qed.

Lemma default_well_formed (C : FormClass) (w w' : World) (o : object) :
  default C w = (inr o, w') → well_formed o.
Proof.
  destruct (default_eq C w) as [w2 E]. rewrite E. intros H. inversion H; subst.
  destruct C; repeat split.
Qed.

Lemma makeForm_well_formed (formName target : string) (w w' : World) (o : object) :
  makeForm formName target w = (inr o, w') → well_formed o.
Proof.
  rewrite makeForm_eq.
  destruct (String.eqb formName "shrubbery creation");
    [intros H; inversion H; repeat split |].
  destruct (String.eqb formName "robotomy request");
    [intros H; inversion H; repeat split |].
  destruct (String.eqb formName "presidential pardon");
    [intros H; inversion H; repeat split | discriminate].
Qed.

Lemma construct_at_built {T : Type} (p0 : loc) (ctor : M World T)
    (σ σ' : State T) (r : exception + unit) (p : loc) (o' : T) :
  construct_at p0 ctor σ = Some (r, σ') →
  heap σ !! p = None →
  heap σ' !! p = Some o' →
  ∃ w', ctor (world σ) = (inr o', w').
Proof.
  unfold construct_at. intros H Hp Hp'.
  destruct (heap σ !! p0); [discriminate |].
  destruct (ctor (world σ)) as [[e | o1] w2]; inversion H; subst; simpl in Hp'.
  - congruence.
  - destruct (decide (p0 = p)) as [-> | Hne].
    + rewrite lookup_insert_eq in Hp'. inversion Hp'; subst. eauto.
    + rewrite lookup_insert_ne in Hp' by assumption. congruence.
Qed.

Lemma step_well_formed (c : call) (σ σ' : State object) (r : exception + unit) :
  (∀ p o, heap σ !! p = Some o → well_formed o) →
  step c σ = Some (r, σ') →
  ∀ p o, heap σ' !! p = Some o → well_formed o.
Proof.
  intros Hwf Hstep p o Hp'.
  destruct (heap σ !! p) as [o0 |] eqn:Hp.
  - destruct (step_object c p σ σ' r o0 Hstep Hp) as (o' & Ho' & (Hc & Hn & Hs & He) & _).
    assert (o' = o) by congruence. subst o'.
    destruct (Hwf p o0 Hp) as (Wn & Ws & We).
    unfold well_formed. rewrite Hc, Hn, Hs, He. auto.
  - destruct (step_heap c σ σ' r Hstep) as [E | (_ & o1 & E)];
      [rewrite E in Hp'; congruence |].
    destruct c as [C p0 | C p0 t | p0 k t | p0 q | p0 b | p0 b | p0 q | C p0 q];
      simpl in Hstep.
    + destruct (construct_at_built _ _ _ _ _ _ _ Hstep Hp Hp') as [w' Hb].
      eapply default_well_formed; eassumption.
    + destruct (construct_at_built _ _ _ _ _ _ _ Hstep Hp Hp') as [w' Hb].
      eapply new_well_formed; eassumption.
    + destruct (construct_at_built _ _ _ _ _ _ _ Hstep Hp Hp') as [w' Hb].
      eapply makeForm_well_formed; eassumption.
    + destruct (heap σ !! q) as [oq |] eqn:Hq; [| discriminate].
      destruct (construct_at_built _ _ _ _ _ _ _ Hstep Hp Hp') as [w' Hb].
      destruct (copy_eq oq (world σ)) as [w2 Hc]. rewrite Hc in Hb.
      inversion Hb; subst. eapply Hwf; eassumption.
    + exfalso. unfold on_object in Hstep.
      destruct (heap σ !! p0) eqn:H0; [| discriminate].
      simpl in E. rewrite E in Hp'.
      rewrite lookup_insert_ne in Hp' by congruence. congruence.
    + exfalso. unfold on_world in Hstep.
      destruct (heap σ !! p0) as [o0 |]; [| discriminate].
      destruct (execute o0 b (world σ)). inversion Hstep; subst. simpl in Hp'. congruence.
    + exfalso. unfold AForm_operator_assign in Hstep.
      destruct (heap σ !! p0) eqn:H0; [| discriminate].
      simpl in E. rewrite E in Hp'.
      rewrite lookup_insert_ne in Hp' by congruence. congruence.
    + exfalso. unfold operator_assign in Hstep.
      destruct (heap σ !! p0) eqn:H0; [| discriminate].
      simpl in E. rewrite E in Hp'.
      rewrite lookup_insert_ne in Hp' by congruence. congruence.
Qed.

Lemma Form_step_in_range (c : Form.call) (σ σ' : State Form.t) (r : exception + unit) :
  (∀ p f, heap σ !! p = Some f → Form_in_range f) →
  Form.step c σ = Some (r, σ') →
  ∀ p f, heap σ' !! p = Some f → Form_in_range f.
Proof.
  intros Hin Hstep p f Hp'.
  destruct (heap σ !! p) as [f0 |] eqn:Hp.
  - destruct (Form_step_object c p σ σ' r f0 Hstep Hp) as (f' & Hf' & (Hn & Hs & He) & _).
    assert (f' = f) by congruence. subst f'.
    destruct (Hin p f0 Hp) as (Ws & We).
    unfold Form_in_range. rewrite Hs, He. auto.
  - destruct (Form_step_heap c σ σ' r Hstep) as [E | (_ & f1 & E)];
      [rewrite E in Hp'; congruence |].
    destruct c as [p0 | p0 n gs ge | p0 q | p0 b | p0 q]; simpl in Hstep.
    + destruct (construct_at_built _ _ _ _ _ _ _ Hstep Hp Hp') as [w' Hb].
      unfold Form.default in Hb. run_M. inversion Hb; subst.
      unfold Form_in_range; simpl. lia.
    + destruct (construct_at_built _ _ _ _ _ _ _ Hstep Hp Hp') as [w' Hb].
      rewrite Form_new_eq in Hb. cbv zeta in Hb.
      destruct (Z.ltb_spec gs 1), (Z.ltb_spec ge 1); cbn [orb] in Hb; try discriminate.
      destruct (Z.gtb_spec gs 150), (Z.gtb_spec ge 150); cbn [orb] in Hb;
        try discriminate.
      inversion Hb; subst. unfold Form_in_range; simpl. lia.
    + destruct (heap σ !! q) as [fq |] eqn:Hq; [| discriminate].
      destruct (construct_at_built _ _ _ _ _ _ _ Hstep Hp Hp') as [w' Hb].
      destruct (Form_copy_eq fq (world σ)) as [w2 Hc]. rewrite Hc in Hb.
      inversion Hb; subst. eapply Hin; eassumption.
    + exfalso. unfold on_object in Hstep.
      destruct (heap σ !! p0) eqn:H0; [| discriminate].
      simpl in E. rewrite E in Hp'.
      rewrite lookup_insert_ne in Hp' by congruence. congruence.
    + exfalso. unfold Form.operator_assign in Hstep.
      destruct (heap σ !! p0) eqn:H0; [| discriminate].
      simpl in E. rewrite E in Hp'.
      rewrite lookup_insert_ne in Hp' by congruence. congruence.
Qed.

(** X6. Whatever calls are made on a store of concrete forms, every form in
    it has the name and the two grades its class gives it: no copy, no copy
    assignment (through [AForm] or not) and no intern mixes them up.  So
    its grades lie in 1..150 and whoever may execute it may sign it.  On a
    store of the forms of ex01 every run of calls keeps the grades of all
    forms in 1..150. *)
Theorem built_forms_keep_their_class_grades :
  (∀ (cs : list call) (σ0 σ : State object),
     (∀ p o, heap σ0 !! p = Some o → well_formed o) →
     run cs σ0 = Some σ →
     ∀ p o, heap σ !! p = Some o →
       well_formed o ∧
       1 <= AForm._gradeToExecute (base o) ∧
       AForm._gradeToExecute (base o) <= AForm._gradeToSign (base o) ∧
       AForm._gradeToSign (base o) <= 150) ∧
  (∀ (cs : list Form.call) (σ0 σ : State Form.t),
     (∀ p f, heap σ0 !! p = Some f → Form_in_range f) →
     Form_run cs σ0 = Some σ →
     ∀ p f, heap σ !! p = Some f → Form_in_range f).
Proof.
  split.
  - intros cs σ0 σ H0 Hrun.
    assert (Hwf : ∀ p o, heap σ !! p = Some o → well_formed o).
    { revert σ0 H0 Hrun. induction cs as [| c cs IH]; intros σ0 H0 Hrun; simpl in Hrun.
      - inversion Hrun; subst. exact H0.
      - destruct (step c σ0) as [[r σ1] |] eqn:Hstep; [| discriminate].
        apply (IH σ1); [| exact Hrun].
        eapply step_well_formed; eassumption. }
    intros p o Hp. pose proof (Hwf p o Hp) as W. split; [exact W |].
    destruct W as (_ & Ws & We). rewrite Ws, We.
    destruct (dynamic_class o); simpl; lia.
  - intros cs. induction cs as [| c cs IH]; intros σ0 σ H0 Hrun; simpl in Hrun.
    + inversion Hrun; subst. exact H0.
    + destruct (Form.step c σ0) as [[r σ1] |] eqn:Hstep; [| discriminate].
      apply (IH σ1 σ); [| exact Hrun].
      eapply Form_step_in_range; eassumption.
Qed.

(** From the empty store: two pardons are built, one is signed and the
    other assigned onto it; the form at 1 is still a pardon with grades 25
    and 5. *)
Lemma built_forms_keep_their_class_grades_witness :
  ∃ σ o, run sign_then_assign empty_store = Some σ ∧
         heap σ !! 1%positive = Some o ∧
         well_formed o ∧ AForm._gradeToSign (base o) <= 150.
Proof.
  destruct (run sign_then_assign empty_store) as [σ |] eqn:Hrun;
    [| vm_compute in Hrun; discriminate].
  destruct (heap σ !! 1%positive) as [o |] eqn:Hp.
  - exists σ, o. split; [reflexivity |]. split; [exact Hp |].
    destruct (proj1 built_forms_keep_their_class_grades sign_then_assign empty_store σ)
      with (p := 1%positive) (o := o) as (W & _ & _ & Hs).
    + intros p o0 H. simpl in H. rewrite lookup_empty in H. discriminate.
    + exact Hrun.
    + exact Hp.
    + split; assumption.
  - exfalso. vm_compute in Hrun. inversion Hrun; subst. vm_compute in Hp. discriminate.
Defined.

(** X7. A copy is its source's equal: the copy constructors never throw
    and build a form with the name, grades, signed flag and target of the
    source, without checking the grades again.  And between two forms a
    class has built, the copy assignment of the class leaves the left one
    equal to the right one, although it assigns the flag and the target
    only. *)
Theorem copies_equal_their_source :
  (∀ (o : object) (w : World), fst (copy o w) = inr o) ∧
  (∀ (f : Form.t) (w : World), fst (Form.copy f w) = inr f) ∧
  (∀ (C : FormClass) (p q : loc) (σ : State object) (a b : object),
     heap σ !! p = Some a → heap σ !! q = Some b →
     well_formed a → well_formed b →
     dynamic_class a = C → dynamic_class b = C →
     ∃ σ', operator_assign C p q σ = Some (inr tt, σ') ∧ heap σ' !! p = Some b).
Proof.
  split; [| split].
  - intros o w. destruct (copy_eq o w) as [w' ->]. reflexivity.
  - intros f w. destruct (Form_copy_eq f w) as [w' ->]. reflexivity.
  - intros C p q σ a b Ha Hb Wa Wb Ca Cb.
    destruct (operator_assign_eq C p q σ a b Ha Hb Ca Cb) as [w' E].
    eexists. split; [exact E |]. simpl. rewrite lookup_insert_eq. f_equal.
    destruct a as [ca [na sa gsa gea] ta], b as [cb [nb sb gsb geb] tb].
    destruct Wa as (Wn & Ws & We), Wb as (Wn' & Ws' & We'). simpl in *. subst.
    reflexivity.
Qed.

(** Assigning Arthur's unsigned pardon onto Ford's signed one through
    [PresidentialPardonForm::operator=] leaves Arthur's pardon twice. *)
Lemma copies_equal_their_source_witness :
  ∃ σ', operator_assign PresidentialPardonForm 1 2 two_pardons = Some (inr tt, σ') ∧
        heap σ' !! 1%positive = Some arthur.
Proof.
  apply (proj2 (proj2 copies_equal_their_source) PresidentialPardonForm
           1%positive 2%positive two_pardons
           (with_base (AForm.set_signed true) ford) arthur);
    first [reflexivity | repeat split].
Defined.

(** ** Building, signing and executing in a row *)

(** X8. A form of a concrete class is built, then a bureaucrat signs it and
    executes it.  With a grade up to the execution grade of the class both
    calls return; with a grade between the two grades of the class the
    signing returns and the execution throws GradeTooLow; with a grade
    beyond the signing grade the signing throws GradeTooLow and the
    execution FormNotSigned.  The construction always returns. *)
Theorem build_sign_execute_by_grade
    (C : FormClass) (target : string) (a : Bureaucrat.t) (p : loc) (σ : State object) :
  heap σ !! p = None →
  ∃ σ' rs re,
    trace [New C p target; BeSigned p a; Execute p a] σ = Some ([inr tt; rs; re], σ') ∧
    (Bureaucrat.getGrade a <= class_gradeToExecute C → rs = inr tt ∧ re = inr tt) ∧
    (class_gradeToExecute C < Bureaucrat.getGrade a <= class_gradeToSign C →
       rs = inr tt ∧ re = inl AForm_GradeTooLowException) ∧
    (class_gradeToSign C < Bureaucrat.getGrade a →
       rs = inl AForm_GradeTooLowException ∧ re = inl AForm_FormNotSignedException).
Proof.
  intros Hp.
  destruct (new_eq C target (world σ)) as [w1 E1].
  cbn [trace step]. unfold construct_at. rewrite Hp, E1.
  unfold on_object. cbn [heap world]. rewrite lookup_insert_eq.
  unfold beSigned.
  match goal with |- context [AForm.beSigned a (base ?o)] =>
    destruct (AForm_beSigned_cases a (base o)) as [[Hg E] | [Hg E]]; rewrite E
  end.
  - unfold on_world. cbn [heap world]. rewrite lookup_insert_eq.
    unfold execute.
    destruct (Z_le_gt_dec (Bureaucrat.getGrade a) (class_gradeToExecute C)) as [Hx | Hx].
    + rewrite AForm_execute_action by (destruct C; simpl in *; first [reflexivity | lia]).
      match goal with |- context [executeAction ?o w1] =>
        pose proof (executeAction_returns o w1) as Hr;
        destruct (executeAction o w1) as [r2 w2] end.
      simpl in Hr. subst r2.
      eexists _, _, _. split; [reflexivity |].
      destruct C; simpl in *; repeat split; intros; first [reflexivity | exfalso; lia].
    + rewrite AForm_execute_low by (destruct C; simpl in *; first [reflexivity | lia]).
      eexists _, _, _. split; [reflexivity |].
      destruct C; simpl in *; repeat split; intros; first [reflexivity | exfalso; lia].
  - unfold on_world. cbn [heap world]. rewrite lookup_insert_eq.
    unfold execute.
    rewrite AForm_execute_unsigned by (destruct C; reflexivity).
    eexists _, _, _. split; [reflexivity |].
    destruct C; simpl in *; repeat split; intros; first [reflexivity | exfalso; lia].
Qed.

(** Alice, grade 30, signs and executes a robotomy of Bender built at
    address 1. *)
Lemma build_sign_execute_by_grade_witness :
  ∃ σ', trace [New RobotomyRequestForm 1 "Bender"; BeSigned 1 alice; Execute 1 alice]
          empty_store
        = Some ([inr tt; inr tt; inr tt], σ').
Proof.
  destruct (build_sign_execute_by_grade RobotomyRequestForm "Bender" alice 1%positive
              empty_store eq_refl) as (σ' & rs & re & Htrace & Hboth & _ & _).
  destruct Hboth as [-> ->]; [simpl; lia |].
  exists σ'. exact Htrace.
Defined.

(** X9. A form fresh from a constructor of its class or from an intern
    cannot be executed by anybody, not even at grade 1: [execute] throws
    FormNotSigned and does nothing else. *)
Theorem fresh_form_is_not_executable
    (o : object) (w w' : World) (b : Bureaucrat.t) (w2 : World) :
  (∃ C target, new C target w = (inr o, w'))
  ∨ (∃ C, default C w = (inr o, w'))
  ∨ (∃ formName target, makeForm formName target w = (inr o, w')) →
  execute o b w2 = (inl AForm_FormNotSignedException, w2).
Proof.
  intros H. unfold execute. apply AForm_execute_unsigned.
  destruct H as [(C & t & H) | [(C & H) | (k & t & H)]].
  - destruct (new_eq C t w) as [w1 E]. rewrite E in H. inversion H; subst.
    destruct C; reflexivity.
  - destruct (default_eq C w) as [w1 E]. rewrite E in H. inversion H; subst.
    destruct C; reflexivity.
  - eapply makeForm_unsigned; eassumption.
Qed.

(** The intern's robotomy of Bender, and Charlie at grade 1. *)
Lemma fresh_form_is_not_executable_witness :
  execute bender charlie (world_at 0) = (inl AForm_FormNotSignedException, world_at 0).
Proof.
  apply (fresh_form_is_not_executable bender (world_at 0)
           (snd (makeForm "robotomy request" "Bender" (world_at 0)))).
  right; right. exists "robotomy request", "Bender". reflexivity.
Defined.

(** ** The files of the shrubbery *)


(** X10. The action never appends to an old file: when the file opens,
    what it holds afterwards is a leading part of the text, all of it when
    no write fails, and none of what it held before; so the outcome of the
    action does not depend on what the file held. *)
Theorem shrubbery_overwrites_its_file (this : object) (w : World) :
  c_str (_target this +:+ "_shrubbery") ∉ unwritable w →
  files (snd (ShrubberyCreationForm_executeAction this w))
    !! resolve w (c_str (_target this +:+ "_shrubbery"))
  = Some (written (write_budget w (resolve w (c_str (_target this +:+ "_shrubbery"))))
            shrubbery_text) ∧
  (write_budget w (resolve w (c_str (_target this +:+ "_shrubbery"))) = None →
   files (snd (ShrubberyCreationForm_executeAction this w))
     !! resolve w (c_str (_target this +:+ "_shrubbery"))
   = Some shrubbery_text) ∧
  (∀ old : string,
     files (snd (ShrubberyCreationForm_executeAction this
                   (set_files (<[resolve w (c_str (_target this +:+ "_shrubbery")) := old]>
                                 (files w)) w)))
     = files (snd (ShrubberyCreationForm_executeAction this w))).
Proof.
  intros Hn. split; [| split].
  - rewrite ShrubberyCreationForm_executeAction_eq. cbv zeta.
    rewrite bool_decide_eq_false_2 by assumption.
    cbn [snd files set_cout set_files]. apply lookup_insert_eq.
  - intros Hb. rewrite ShrubberyCreationForm_executeAction_eq. cbv zeta.
    rewrite bool_decide_eq_false_2 by assumption.
    cbn [snd files set_cout set_files]. rewrite Hb. apply lookup_insert_eq.
  - intros old. rewrite !ShrubberyCreationForm_executeAction_eq. cbv zeta.
    cbn [unwritable resolve write_budget set_files files].
    rewrite bool_decide_eq_false_2 by assumption.
    cbn [snd files set_cout set_files]. apply insert_insert_eq.
Qed.

(** The file of "garden" held an old text: after the action it holds the
    shrubbery and nothing of the old text. *)
Lemma shrubbery_overwrites_its_file_witness :
  files (snd (ShrubberyCreationForm_executeAction garden
                (set_files {["garden_shrubbery" := "an old text"]} (world_at 0))))
    !! "garden_shrubbery"
  = Some shrubbery_text.
Proof.
  apply (shrubbery_overwrites_its_file garden
           (set_files {["garden_shrubbery" := "an old text"]} (world_at 0))).
  - vm_compute. set_solver.
  - reflexivity.
Defined.



(** ** The draw of the robotomy *)

(** What [RobotomyRequestForm::executeAction] does, in one equation. *)
Lemma RobotomyRequestForm_executeAction_eq (this : object) (w : World) :
  RobotomyRequestForm_executeAction this w
  = (inr tt,
     mkWorld (cout w ++ [drilling; robotomy_line (drawn w) (_target this)])
       (files w) (unwritable w) (clock w) (libc_rand w)
       (snd (libc_rand w (to_unsigned_int (clock w))))
       (fopen_log w) (S (rand_calls w)) (resolve w) (write_budget w)).
Proof.
  unfold RobotomyRequestForm_executeAction, time_NULL, srand, rand, drawn, robotomy_line.
  run_M. destruct (libc_rand w (to_unsigned_int (clock w))) as [r s']. simpl.
  destruct (Z.rem r 2 =? 0); unfold modify, set_cout, drilling; simpl;
    rewrite <- !app_assoc; reflexivity.
Qed.

(** X12. The generator is seeded again with the clock at every call, so the
    outcome of a robotomy depends on the clock and the generator only, not
    on the draws made before: robotomies run one after the other while the
    clock shows the same second all succeed or all fail, and so does a
    robotomy run in any other world with the same clock and generator. *)
Theorem robotomies_in_the_same_second_end_alike (this1 this2 : object) (w : World) :
  cout (snd (RobotomyRequestForm_executeAction this2
               (snd (RobotomyRequestForm_executeAction this1 w))))
  = (cout w ++ [ drilling; robotomy_line (drawn w) (_target this1);
                 drilling; robotomy_line (drawn w) (_target this2) ])%list ∧
  (∀ w' : World,
     clock w' = clock w → libc_rand w' = libc_rand w →
     cout (snd (RobotomyRequestForm_executeAction this1 w'))
     = (cout w' ++ [ drilling; robotomy_line (drawn w) (_target this1) ])%list).
Proof.
  split.
  - rewrite !RobotomyRequestForm_executeAction_eq. cbn [snd cout].
    unfold drawn at 1. cbn [clock libc_rand]. fold (drawn w).
    rewrite <- app_assoc. reflexivity.
  - intros w' Hc Hr. rewrite RobotomyRequestForm_executeAction_eq. cbn [snd cout].
    unfold drawn. rewrite Hc, Hr. reflexivity.
Qed.

(** With the clock at second 1 and a generator whose first draw after
    [srand(s)] is [s], the robotomies of Bender and of Wall-E both fail. *)
Lemma robotomies_in_the_same_second_end_alike_witness :
  cout (snd (RobotomyRequestForm_executeAction
               (mkObject RobotomyRequestForm (base bender) "Wall-E")
               (snd (RobotomyRequestForm_executeAction bender (world_at 1)))))
  = [ drilling; "Robotomy of Bender has failed!";
      drilling; "Robotomy of Wall-E has failed!" ].
Proof.
  etransitivity.
  - apply (robotomies_in_the_same_second_end_alike bender
             (mkObject RobotomyRequestForm (base bender) "Wall-E") (world_at 1)).
  - reflexivity.
Defined.

(** ** The effects of the three actions *)


(** ** The two versions of the form class *)

(** X14. The [AForm] of ex02 keeps the behaviour of the [Form] of ex01:
    the constructor with grades, the copy constructor, [beSigned] and the
    copy assignment end alike on forms with the same members, with an
    exception of the same kind or with forms that have the same members
    again. *)
Theorem AForm_behaves_as_Form :
  (∀ (name : string) (s e : Z) (w : World),
     ends_alike (fun a f => to_Form a = f)
       (fst (AForm.new name s e w)) (fst (Form.new name s e w))) ∧
  (∀ (a : AForm.t) (w : World),
     ends_alike (fun a' f' => to_Form a' = f')
       (fst (AForm.copy a w)) (fst (Form.copy (to_Form a) w))) ∧
  (∀ (b : Bureaucrat.t) (a : AForm.t),
     ends_alike (fun _ _ => True)
       (fst (AForm.beSigned b a)) (fst (Form.beSigned b (to_Form a))) ∧
     to_Form (snd (AForm.beSigned b a)) = snd (Form.beSigned b (to_Form a))) ∧
  (∀ (p q : loc) (σ σ' : State object) (r : exception + unit),
     AForm_operator_assign p q σ = Some (r, σ') →
     ∃ w',
       Form.operator_assign p q
         (mkState ((fun o => to_Form (base o)) <$> heap σ) (world σ))
       = Some (r, mkState ((fun o => to_Form (base o)) <$> heap σ') w')).
Proof.
  split; [| split; [| split]].
  - intros name s e w. rewrite AForm_new_eq, Form_new_eq. cbv zeta.
    destruct ((s <? 1) || (e <? 1)); [reflexivity |].
    destruct ((s >? 150) || (e >? 150)); reflexivity.
  - intros a w. reflexivity.
  - intros b a.
    destruct (AForm_beSigned_cases b a) as [[Hg E] | [Hg E]];
      destruct (Form_beSigned_cases b (to_Form a)) as [[Hg' E'] | [Hg' E']];
      simpl in Hg'; try lia; rewrite E, E'; split; reflexivity.
  - intros p q σ σ' r H.
    destruct (heap σ !! p) as [a |] eqn:Ha;
      [| unfold AForm_operator_assign in H; rewrite Ha in H; discriminate].
    destruct (heap σ !! q) as [b |] eqn:Hb;
      [| unfold AForm_operator_assign in H; rewrite Ha, Hb in H; discriminate].
    rewrite (AForm_operator_assign_eq _ _ _ _ _ Ha Hb) in H. inversion H; subst.
    eexists.
    erewrite Form_operator_assign_eq
      by (simpl; rewrite lookup_fmap; (rewrite Ha || rewrite Hb); reflexivity).
    cbn [heap world]. rewrite fmap_insert. reflexivity.
Qed.

(** On the two pardons: the assignment of ex02 and the assignment of ex01
    on the same forms both return. *)
Lemma AForm_behaves_as_Form_witness :
  ∃ σF, Form.operator_assign 1 2
          (mkState ((fun o => to_Form (base o)) <$> heap two_pardons) (world two_pardons))
        = Some (inr tt, σF).
Proof.
  pose proof (AForm_operator_assign_eq 1 2 two_pardons _ _ eq_refl eq_refl) as E.
  destruct (proj2 (proj2 (proj2 AForm_behaves_as_Form)) _ _ _ _ _ E) as [w' H].
  eexists. exact H.
Defined.

(** ** Messages *)

(** X15. The message of an exception tells its kind and nothing more: two
    exceptions of the form classes and the intern have the same [what()]
    exactly when they are of the same kind, so a handler that prints
    [e.what()] cannot tell a [Form] exception from an [AForm] one. *)
Theorem what_tells_the_kind (e1 e2 : exception) (m1 m2 : string) :
  what e1 = Some m1 → what e2 = Some m2 →
  (m1 = m2 ↔ kind e1 = kind e2).
Proof.
  destruct e1, e2; simpl; intros H1 H2;
    first [discriminate | inversion H1; inversion H2; subst; split; intros H;
                          first [reflexivity | discriminate]].
Qed.

Lemma what_tells_the_kind_witness :
  kind Form_GradeTooLowException = kind AForm_GradeTooLowException.
Proof.
  apply (what_tells_the_kind Form_GradeTooLowException AForm_GradeTooLowException
           "grade is too low" "grade is too low"); reflexivity.
Defined.

(** ** Printing a form *)

Lemma commas_append (s1 s2 : string) :
  commas (s1 +:+ s2) = (commas s1 + commas s2)%nat.
Proof. induction s1 as [| c s1 IH]; simpl; [reflexivity | rewrite IH; lia]. Qed.

Lemma commas_uint (d : Decimal.uint) :
  commas (DecimalString.NilEmpty.string_of_uint d) = 0%nat.
Proof. induction d; simpl; assumption || reflexivity. Qed.

Lemma commas_print_int (n : Z) : commas (print_int n) = 0%nat.
Proof.
  unfold print_int, DecimalString.NilZero.string_of_int,
    DecimalString.NilZero.string_of_uint.
  destruct (Z.to_int n) as [d | d]; destruct d; simpl;
    try reflexivity; apply commas_uint.
Qed.

Lemma print_int_inj (a b : Z) : print_int a = print_int b → a = b.
Proof.
  unfold print_int. intros H. apply DecimalZ.to_int_inj.
  assert (nonnil : ∀ z, Z.to_int z ≠ Decimal.Pos Decimal.Nil
                        ∧ Z.to_int z ≠ Decimal.Neg Decimal.Nil).
  { intros [| p | p]; simpl; split; try discriminate;
      intros E; inversion E as [E']; apply (DecimalPos.Unsigned.to_uint_nonnil p);
      exact E'. }
  destruct (nonnil a) as [Ha Ha'], (nonnil b) as [Hb Hb'].
  apply (f_equal DecimalString.NilZero.int_of_string) in H.
  rewrite !DecimalString.NilZero.isi in H by assumption.
  inversion H. reflexivity.
Qed.

(** Two ways to cut one string in two: one cut point is ahead of the other. *)
Lemma append_eq_append (s1 t1 s2 t2 : string) :
  s1 +:+ t1 = s2 +:+ t2 →
  ∃ x, (s2 = s1 +:+ x ∧ t1 = x +:+ t2) ∨ (s1 = s2 +:+ x ∧ t2 = x +:+ t1).
Proof.
  revert s2. induction s1 as [| c s1 IH]; intros s2 H.
  - exists s2. left. split; [reflexivity | exact H].
  - destruct s2 as [| c2 s2].
    + exists (String c s1). right. split; [reflexivity | symmetry; exact H].
    + simpl in H. inversion H; subst.
      destruct (IH s2 H2) as [x [[-> ->] | [-> ->]]]; exists x; [left | right];
        split; reflexivity.
Qed.

Lemma no_comma_prefix (x r r' : string) :
  commas x = 0%nat → String "," r = x +:+ r' → x = EmptyString.
Proof.
  destruct x as [| c x]; [reflexivity |]. simpl. intros Hc H.
  inversion H; subst. simpl in Hc. discriminate.
Qed.

Lemma commas_after_name (sg : bool) (gs ge : Z) : commas (after_name sg gs ge) = 3%nat.
Proof.
  unfold after_name. rewrite !commas_append, !commas_print_int.
  destruct sg; reflexivity.
Qed.

Lemma after_name_inj (sg sg' : bool) (gs gs' ge ge' : Z) :
  after_name sg gs ge = after_name sg' gs' ge' → sg = sg' ∧ gs = gs' ∧ ge = ge'.
Proof.
  unfold after_name. intros H.
  apply (inj (String.append ", signed: ")) in H.
  assert (Hsg : sg = sg' ∧
                print_int gs +:+ ", grade required to execute: " +:+ print_int ge
                = print_int gs' +:+ ", grade required to execute: " +:+ print_int ge').
  { destruct sg, sg'; try (simpl in H; discriminate); split; try reflexivity.
    - apply (inj (String.append "yes")) in H.
      apply (inj (String.append ", grade required to sign: ")) in H. exact H.
    - apply (inj (String.append "no")) in H.
      apply (inj (String.append ", grade required to sign: ")) in H. exact H. }
  destruct Hsg as [-> Hrest]. split; [reflexivity |].
  assert (Hcut : print_int gs = print_int gs' ∧
                 ", grade required to execute: " +:+ print_int ge
                 = ", grade required to execute: " +:+ print_int ge').
  { destruct (append_eq_append _ _ _ _ Hrest) as [x [[Hx Ht] | [Hx Ht]]].
    - assert (x = EmptyString).
      { eapply no_comma_prefix; [| exact Ht].
        pose proof (commas_print_int gs') as Hc. rewrite Hx, commas_append in Hc. lia. }
      subst x. rewrite append_nil_r in Hx. split; [congruence | exact Ht].
    - assert (x = EmptyString).
      { eapply no_comma_prefix; [| exact Ht].
        pose proof (commas_print_int gs) as Hc. rewrite Hx, commas_append in Hc. lia. }
      subst x. rewrite append_nil_r in Hx. split; [congruence | symmetry; exact Ht]. }
  destruct Hcut as [Hgs Hge].
  apply (inj (String.append ", grade required to execute: ")) in Hge.
  split; apply print_int_inj; assumption.
Qed.

Lemma name_after_name_inj (n n' : string) (sg sg' : bool) (gs gs' ge ge' : Z) :
  n +:+ after_name sg gs ge = n' +:+ after_name sg' gs' ge' →
  n = n' ∧ sg = sg' ∧ gs = gs' ∧ ge = ge'.
Proof.
  intros H.
  assert (Hcut : n = n' ∧ after_name sg gs ge = after_name sg' gs' ge').
  { destruct (append_eq_append _ _ _ _ H) as [x [[Hx Ht] | [Hx Ht]]].
    - assert (x = EmptyString).
      { eapply no_comma_prefix; [| exact Ht].
        pose proof (commas_after_name sg gs ge) as Hc.
        rewrite Ht, commas_append, commas_after_name in Hc. lia. }
      subst x. rewrite append_nil_r in Hx. split; [congruence | exact Ht].
    - assert (x = EmptyString).
      { eapply no_comma_prefix; [| exact Ht].
        pose proof (commas_after_name sg' gs' ge') as Hc.
        rewrite Ht, commas_append, commas_after_name in Hc. lia. }
      subst x. rewrite append_nil_r in Hx. split; [congruence | symmetry; exact Ht]. }
  destruct Hcut as [Hn Ht]. split; [exact Hn |]. apply after_name_inj. exact Ht.
Qed.

(** X16. The line the insertion operator prints for a form tells the form
    apart from every other: two forms with the same printed line have the
    same name, signed flag and grades, whatever characters the names hold.
    For the operator of [AForm] and for the operator of [Form]. *)
Theorem printed_line_determines_the_form :
  (∀ f g : AForm.t, AForm_insertion f = AForm_insertion g → f = g) ∧
  (∀ f g : Form.t, Form_insertion f = Form_insertion g → f = g).
Proof.
  split; intros [n s gs ge] [n' s' gs' ge'] H.
  - apply (inj (String.append "AForm ")) in H.
    destruct (name_after_name_inj n n' s s' gs gs' ge ge' H) as (-> & -> & -> & ->).
    reflexivity.
  - apply (inj (String.append "Form ")) in H.
    destruct (name_after_name_inj n n' s s' gs gs' ge ge' H) as (-> & -> & -> & ->).
    reflexivity.
Qed.

(** The lines of the tax form of ex01, signed and unsigned, differ. *)
Lemma printed_line_determines_the_form_witness :
  Form_insertion (Form.mk "Tax Form" false 50 25)
    = "Form Tax Form, signed: no, grade required to sign: 50, grade required to execute: 25" ∧
  (Form_insertion (Form.mk "Tax Form" true 50 25)
   = Form_insertion (Form.mk "Tax Form" false 50 25) → False).
Proof.
  split; [reflexivity |].
  intros H. apply (proj2 printed_line_determines_the_form) in H. discriminate.
Defined.
